(** * Elastic arrays (libcperciva/datastruct/elasticarray.c)

    A shallow embedding of the elastic array of libcperciva and the
    properties of its growth/shrink policy, its overflow checks and its
    export operations.

    - [size_t] values are integers in [Z]; every arithmetic operation of the
      source that can wrap is written with [wrap] (reduction modulo
      [SIZE_MAX + 1]).  The width of [size_t] is a parameter of the platform.
    - [struct elasticarray] is a record.  The array owns its backing
      allocation exclusively, so the record carries the block itself: its
      address and the bytes stored in it (a finite map from offsets to bytes;
      an offset that is not in the map holds an indeterminate byte).
    - malloc, realloc and free are calls to an allocator whose answers are
      not determined by the program: the memory state carries the list of
      the answers still to come and the log of the calls made so far.  The
      allocator leaves errno alone; the only writes to errno are those of
      the source.  *)

From Stdlib Require Import ZArith Lia List.
From Stdlib.Init Require Import Byte.
From stdpp Require Import gmap list.

Local Open Scope Z_scope.

(** ** Memory blocks and the allocator *)

Record block := Block {
  b_addr : Z;                   (* address returned by the allocator *)
  b_data : gmap Z byte          (* initialised bytes, by offset *)
}.

Inductive event :=
| EvMallocEA (ok : bool)                            (* malloc(sizeof(struct elasticarray)) *)
| EvFreeEA                                          (* free(EA) *)
| EvMalloc (n : Z) (r : option Z)                   (* malloc(n) *)
| EvRealloc (p : option Z) (n : Z) (r : option Z)   (* realloc(p, n) *)
| EvFree (p : option Z).                            (* free(p) *)

Inductive errcode := ENOMEM.

Record mem := Mem {
  answers : list (option Z);    (* what the allocator will answer: None is NULL *)
  log : list event;             (* allocator calls so far, oldest first *)
  errno : option errcode        (* None: not set by this code *)
}.

(** A state monad over [mem]. *)
Definition M (A : Type) : Type := mem -> A * mem.

Definition ret {A} (a : A) : M A := fun m => (a, m).

Definition bind {A B} (c : M A) (k : A -> M B) : M B :=
  fun m => let (a, m') := c m in k a m'.

Notation "x <~ c ;; k" := (bind c (fun x => k))
  (at level 62, c at next level, right associativity).
Notation "c ;;; k" := (bind c (fun _ => k))
  (at level 62, right associativity).

Definition next_answer : M (option Z) := fun m =>
  match answers m with
  | [] => (None, m)
  | a :: rest => (a, Mem rest (log m) (errno m))
  end.

Definition emit (e : event) : M unit := fun m =>
  (tt, Mem (answers m) (log m ++ [e]) (errno m)).

Definition set_errno (e : errcode) : M unit := fun m =>
  (tt, Mem (answers m) (log m) (Some e)).

Definition block_addr (p : option block) : option Z := b_addr <$> p.

Definition block_data (p : option block) : gmap Z byte :=
  match p with Some b => b_data b | None => ∅ end.

(** The first [n] bytes of a block. *)
Definition prefix_bytes (d : gmap Z byte) (n : Z) : gmap Z byte :=
  filter (fun kv => kv.1 < n) d.

(** free(p). *)
Definition c_free (p : option block) : M unit := emit (EvFree (block_addr p)).

(** malloc(n): the new block holds no initialised byte. *)
Definition c_malloc (n : Z) : M (option block) :=
  a <~ next_answer ;;
  emit (EvMalloc n a) ;;;
  ret (match a with
       | None => None
       | Some addr => Some (Block addr ∅)
       end).

(** realloc(p, n): on failure the old block is untouched; on success the
    contents are kept up to the smaller of the old and new sizes. *)
Definition c_realloc (p : option block) (n : Z) : M (option block) :=
  a <~ next_answer ;;
  emit (EvRealloc (block_addr p) n a) ;;;
  ret (match a with
       | None => None
       | Some addr => Some (Block addr (prefix_bytes (block_data p) n))
       end).

(** malloc(sizeof(struct elasticarray)). *)
Definition malloc_struct : M bool :=
  a <~ next_answer ;;
  let ok := match a with Some _ => true | None => false end in
  emit (EvMallocEA ok) ;;;
  ret ok.

(** free(EA). *)
Definition free_struct : M unit := emit EvFreeEA.

(** memcpy(dst + off, src, n), on the bytes of the destination block. *)
Fixpoint store_bytes (d : gmap Z byte) (off : Z) (src : list byte) : gmap Z byte :=
  match src with
  | [] => d
  | b :: rest => store_bytes (<[off := b]> d) (off + 1) rest
  end.

Definition memcpy (d : gmap Z byte) (off : Z) (src : list byte) (n : Z) : gmap Z byte :=
  store_bytes d off (take (Z.to_nat n) src).

(** The allocator refuses the next request. *)
Definition refused (m : mem) : Prop := hd None (answers m) = None.

(** The memory state after one request was answered and logged. *)
Definition answered (m : mem) (e : event) : mem :=
  Mem (tl (answers m)) (log m ++ [e]) (errno m).

(** The memory state after a call to free was logged. *)
Definition logged (m : mem) (e : event) : mem :=
  Mem (answers m) (log m ++ [e]) (errno m).

(** ** Accounting of the allocator calls *)

(** 1 for a pointer that is not NULL, 0 for NULL. *)
Definition present {A : Type} (p : option A) : Z :=
  match p with Some _ => 1 | None => 0 end.

(** What a call changes in the number of live byte blocks: malloc adds the
    block it returns, a successful realloc returns one block and takes the
    one it was given, a failed realloc changes nothing, free takes the
    block it is given. *)
Definition event_blocks (e : event) : Z :=
  match e with
  | EvMalloc _ r => present r
  | EvRealloc p _ (Some _) => 1 - present p
  | EvRealloc _ _ None => 0
  | EvFree p => - present p
  | EvMallocEA _ => 0
  | EvFreeEA => 0
  end.

(** The same for the structures. *)
Definition event_structs (e : event) : Z :=
  match e with
  | EvMallocEA true => 1
  | EvFreeEA => -1
  | _ => 0
  end.

Definition live_blocks (l : list event) : Z :=
  foldr (fun e n => event_blocks e + n) 0 l.

Definition live_structs (l : list event) : Z :=
  foldr (fun e n => event_structs e + n) 0 l.

(** ** The elastic array *)

Record elasticarray := EArr {
  size : Z;
  alloc : Z;
  buf : option block
}.

(** Address held by a pointer; NULL is address 0. *)
Definition ptr_of (p : option block) : Z :=
  match p with Some b => b_addr b | None => 0 end.

(** Between two states of the array and of the memory, the allocator calls
    made account for the storage: the number of live byte blocks has
    changed as the presence of the storage has, and the number of live
    structures has not changed. *)
Definition accounted (EA : elasticarray) (m : mem)
    (EA' : elasticarray) (m' : mem) : Prop :=
  live_blocks (log m') =
    live_blocks (log m) + present (buf EA') - present (buf EA) /\
  live_structs (log m') = live_structs (log m).

(** The allocator calls [evs] act on the storage and on nothing else,
    where [p] is the address of the storage before them and [p'] the one
    after: there is at most one call; free and realloc are handed [p];
    after free there is no storage, after a successful realloc the storage
    is the block obtained, and otherwise the storage is where it was. *)
Definition on_storage (p p' : option Z) (evs : list event) : Prop :=
  match evs with
  | [] => p' = p
  | [EvFree q] => q = p /\ p' = None
  | [EvRealloc q _ None] => q = p /\ p' = p
  | [EvRealloc q _ (Some a)] => q = p /\ p' = Some a
  | _ => False
  end.

(** Between two states of the array and of the memory, the log has grown
    by calls on the storage of the array. *)
Definition storage_calls (EA : elasticarray) (m : mem)
    (EA' : elasticarray) (m' : mem) : Prop :=
  exists evs,
    log m' = log m ++ evs /\
    on_storage (block_addr (buf EA)) (block_addr (buf EA')) evs.

(** The platform: the width of [size_t] in bits. *)
Class Platform := { size_bits : positive }.

Section Elastic.

Context {P : Platform}.

Definition modulus : Z := 2 ^ Z.pos size_bits.
Definition SIZE_MAX : Z := modulus - 1.
Definition wrap (x : Z) : Z := x mod modulus.

(** "Figure out how large an allocation we want": the first part of
    [resize], on the current allocation size and the target size. *)
Definition resize_nalloc (a nsize : Z) : Z :=
  if a <? nsize then
    let nalloc := wrap (a * 2) in
    if nalloc <? nsize then nsize else nalloc
  else if wrap (nsize * 4) <? a then
    wrap (nsize * 2)
  else
    a.

(** resize(EA, nsize): returns 0 or -1 and the array after the call. *)
Definition resize (EA : elasticarray) (nsize : Z) : M (Z * elasticarray) :=
  let nalloc := resize_nalloc (alloc EA) nsize in
  if nalloc =? 0 then
    c_free (buf EA) ;;;
    ret (0, EArr nsize 0 None)
  else if negb (nalloc =? alloc EA) then
    nbuf <~ c_realloc (buf EA) nalloc ;;
    match nbuf with
    | None => ret (-1, EA)
    | Some b => ret (0, EArr nsize nalloc (Some b))
    end
  else
    ret (0, EArr nsize (alloc EA) (buf EA)).

(** elasticarray_resize(EA, nrec, reclen). *)
Definition elasticarray_resize (EA : elasticarray) (nrec reclen : Z)
  : M (Z * elasticarray) :=
  if SIZE_MAX / reclen <? nrec then
    set_errno ENOMEM ;;;
    ret (-1, EA)
  else
    r <~ resize EA (wrap (nrec * reclen)) ;;
    if fst r =? 0 then ret (0, snd r) else ret (-1, snd r).

(** elasticarray_free(EA); None is the NULL pointer. *)
Definition elasticarray_free (EA : option elasticarray) : M unit :=
  match EA with
  | None => ret tt
  | Some ea => c_free (buf ea) ;;; free_struct
  end.

(** elasticarray_init(nrec, reclen); None is the NULL result.  The
    assertion [reclen > 0] is a precondition of the function. *)
Definition elasticarray_init (nrec reclen : Z) : M (option elasticarray) :=
  ok <~ malloc_struct ;;
  if ok then
    r <~ elasticarray_resize (EArr 0 0 None) nrec reclen ;;
    if fst r =? 0 then ret (Some (snd r))
    else elasticarray_free (Some (snd r)) ;;; ret None
  else
    ret None.

(** elasticarray_getsize(EA, reclen). *)
Definition elasticarray_getsize (EA : elasticarray) (reclen : Z) : Z :=
  size EA / reclen.

(** elasticarray_append(EA, buf, nrec, reclen); [src] holds the bytes [buf]
    points to.  When [nrec > 0] the source calls memcpy on
    [EA->buf + bufpos] with whatever pointer and allocation the resize has
    left.  That copy is defined only when the storage is present and the
    bytes copied end within the allocation (the size of the block); in any
    other case the behaviour of the program is undefined, and the result
    is None: the embedding then says nothing of the return value or of the
    array.  The memory state returned with None is the one the resize has
    left. *)
Definition elasticarray_append (EA : elasticarray) (src : list byte)
    (nrec reclen : Z) : M (option (Z * elasticarray)) :=
  let bufpos := size EA in
  if (SIZE_MAX / reclen <? nrec)
     || (wrap (SIZE_MAX - size EA) <? wrap (nrec * reclen)) then
    set_errno ENOMEM ;;;
    ret (Some (-1, EA))
  else
    r <~ resize EA (wrap (size EA + wrap (nrec * reclen))) ;;
    if fst r =? 0 then
      let EA' := snd r in
      if 0 <? nrec then
        match buf EA' with
        | Some b =>
            if bufpos + wrap (nrec * reclen) <=? alloc EA' then
              ret (Some (0, EArr (size EA') (alloc EA')
                           (Some (Block (b_addr b)
                                    (memcpy (b_data b) bufpos src
                                       (wrap (nrec * reclen)))))))
            else ret None
        | None => ret None
        end
      else ret (Some (0, EA'))
    else ret (Some (-1, snd r)).

(** "Figure out how much to keep": the first part of
    [elasticarray_shrink]. *)
Definition shrink_nsize (EA : elasticarray) (nrec reclen : Z) : Z :=
  if (SIZE_MAX / reclen <? nrec) || (size EA <? wrap (nrec * reclen))
  then 0
  else wrap (size EA - wrap (nrec * reclen)).

(** elasticarray_shrink(EA, nrec, reclen): no return value. *)
Definition elasticarray_shrink (EA : elasticarray) (nrec reclen : Z)
  : M elasticarray :=
  let nsize := shrink_nsize EA nrec reclen in
  r <~ resize EA nsize ;;
  if fst r =? 0 then ret (snd r)
  else ret (EArr nsize (alloc (snd r)) (buf (snd r))).

(** elasticarray_truncate(EA). *)
Definition elasticarray_truncate (EA : elasticarray) : M (Z * elasticarray) :=
  if size EA =? 0 then
    c_free (buf EA) ;;;
    ret (0, EArr (size EA) 0 None)
  else if size EA <? alloc EA then
    nbuf <~ c_realloc (buf EA) (size EA) ;;
    match nbuf with
    | None => ret (-1, EA)
    | Some b => ret (0, EArr (size EA) (size EA) (Some b))
    end
  else
    ret (0, EA).

(** elasticarray_get(EA, pos, reclen): the address of the record. *)
Definition elasticarray_get (EA : elasticarray) (pos reclen : Z) : Z :=
  ptr_of (buf EA) + wrap (pos * reclen).

(** elasticarray_iter(EA, reclen, fp).  [fp] is a C function: it is
    handed the address of a record, and it can read and write whatever the
    pointers of the program reach, the array included (through the
    functions above).  It is modelled as acting on the array and on the
    rest of the world [W].  The loop test is evaluated before every call,
    as in the source, and the source passes [reclen] and [i] to
    [elasticarray_get] in this order.  [fuel] bounds the number of loop
    tests; None means that the bound was reached. *)
Fixpoint iter_loop {W : Type} (fuel : nat) (reclen : Z)
    (fp : Z -> elasticarray * W -> elasticarray * W)
    (i : Z) (s : elasticarray * W) : option (elasticarray * W) :=
  match fuel with
  | O => None
  | S fuel' =>
      if i <? elasticarray_getsize (fst s) reclen then
        iter_loop fuel' reclen fp (wrap (i + 1))
          (fp (elasticarray_get (fst s) reclen i) s)
      else Some s
  end.

Definition elasticarray_iter {W : Type} (fuel : nat) (EA : elasticarray)
    (reclen : Z) (fp : Z -> elasticarray * W -> elasticarray * W) (w : W)
  : option (elasticarray * W) :=
  iter_loop fuel reclen fp 0 (EA, w).

(** What an export hands to the caller through [buf] and [nrec]. *)
Record exported := Exported {
  out_buf : option block;
  out_nrec : Z
}.

(** elasticarray_export(EA, buf, nrec, reclen): the return value, what was
    written to the out parameters (None: nothing), and the array after the
    call (None: the structure has been freed). *)
Definition elasticarray_export (EA : elasticarray) (reclen : Z)
  : M (Z * option exported * option elasticarray) :=
  r <~ elasticarray_truncate EA ;;
  if fst r =? 0 then
    let EA' := snd r in
    let out := Exported (buf EA') (elasticarray_getsize EA' reclen) in
    free_struct ;;;
    ret (0, Some out, None)
  else
    ret (-1, None, Some (snd r)).

(** elasticarray_exportdup(EA, buf, nrec, reclen).  The copy receives the
    first [size] bytes of the storage.  On failure the result carries no
    buffer (the source leaves NULL in [*buf] and does not write [*nrec]). *)
Definition elasticarray_exportdup (EA : elasticarray) (reclen : Z)
  : M (Z * option exported * elasticarray) :=
  nbuf <~ c_malloc (size EA) ;;
  match nbuf with
  | None => ret (-1, None, EA)
  | Some b =>
      let copy := Block (b_addr b) (prefix_bytes (block_data (buf EA)) (size EA)) in
      ret (0, Some (Exported (Some copy) (elasticarray_getsize EA reclen)), EA)
  end.

(** A caller that appends one batch of records after the other, all of
    the same record length, and stops at the first append that does not
    return 0. *)
Fixpoint append_seq (EA : elasticarray) (batches : list (list byte * Z))
    (reclen : Z) (m : mem) : option (elasticarray * mem) :=
  match batches with
  | [] => Some (EA, m)
  | (src, nrec) :: rest =>
      let r := elasticarray_append EA src nrec reclen m in
      match fst r with
      | Some (rc, EA') =>
          if rc =? 0 then append_seq EA' rest reclen (snd r) else None
      | None => None
      end
  end.

(** ** Invariants of the data model *)

(** A value of type [size_t]. *)
Definition size_ok (x : Z) : Prop := 0 <= x <= SIZE_MAX.

(** The fields of the structure hold [size_t] values. *)
Definition wf (EA : elasticarray) : Prop :=
  size_ok (size EA) /\ size_ok (alloc EA).

(** The invariants of an elastic buffer: the logical size is within the
    allocation, the storage is present exactly when the allocation is not
    empty, and the allocation is at most four times the logical size. *)
Definition inv (EA : elasticarray) : Prop :=
  wf EA /\
  size EA <= alloc EA /\
  (is_Some (buf EA) <-> 0 < alloc EA) /\
  (0 < size EA -> alloc EA <= 4 * size EA).

#[global] Instance size_ok_dec x : Decision (size_ok x).
Proof. unfold size_ok. apply _. Defined.

#[global] Instance wf_dec EA : Decision (wf EA).
Proof. unfold wf. apply _. Defined.

#[global] Instance inv_dec EA : Decision (inv EA).
Proof. unfold inv. apply _. Defined.

(** A function that leaves the logical size of the array as it is. *)
Definition keeps_size {W : Type}
    (fp : Z -> elasticarray * W -> elasticarray * W) : Prop :=
  forall p s, size (fst (fp p s)) = size (fst s).

(** A function that leaves a [size_t] value in the logical size. *)
Definition keeps_size_t {W : Type}
    (fp : Z -> elasticarray * W -> elasticarray * W) : Prop :=
  forall p s, size_ok (size (fst s)) -> size_ok (size (fst (fp p s))).

(** [p] is the address of a record of length [reclen] that starts at a
    multiple of [reclen] from the start of the storage and ends within the
    logical size. *)
Definition in_record (EA : elasticarray) (reclen p : Z) : bool :=
  (0 <=? p - ptr_of (buf EA))
  && ((p - ptr_of (buf EA)) mod reclen =? 0)
  && (p - ptr_of (buf EA) + reclen <=? size EA).

(** The function that behaves as [fp] on the address of such a record of
    the array as it is when the function is called, and as [other] on any
    other address. *)
Definition guarded {W : Type} (reclen : Z)
    (fp other : Z -> elasticarray * W -> elasticarray * W)
    (p : Z) (s : elasticarray * W) : elasticarray * W :=
  if in_record (fst s) reclen p then fp p s else other p s.

(** A function that does nothing but record the address it is handed. *)
Definition record_call (p : Z) (s : elasticarray * list Z)
  : elasticarray * list Z :=
  (fst s, snd s ++ [p]).

(** [resize] has to call realloc: the allocation it wants is neither empty
    nor the current one. *)
Definition needs_realloc (EA : elasticarray) (nsize : Z) : Prop :=
  resize_nalloc (alloc EA) nsize <> 0 /\
  resize_nalloc (alloc EA) nsize <> alloc EA.

(** [elasticarray_truncate] has to call realloc. *)
Definition truncate_needs_realloc (EA : elasticarray) : Prop :=
  size EA <> 0 /\ size EA < alloc EA.

End Elastic.

(** ** Two platforms *)

Definition size32 : Platform := {| size_bits := 32 |}.
Definition size64 : Platform := {| size_bits := 64 |}.

(** ** Runs on the 32-bit platform *)

(** An allocator that grants the next five requests. *)
Definition grants : mem :=
  Mem [Some 16; Some 4096; Some 8192; Some 12288; Some 16384] [] None.

(** The array elasticarray_init(2^31, 1) returns with that allocator, and
    the memory state it leaves. *)
Definition big32 : elasticarray :=
  EArr (2 ^ 31) (2 ^ 31) (Some (Block 4096 ∅)).

Definition big32_mem : mem :=
  Mem [Some 8192; Some 12288; Some 16384]
    [EvMallocEA true; EvRealloc None (2 ^ 31) (Some 4096)] None.

(** Three bytes are appended to an empty array, which is then resized to
    2^31 bytes. *)
Definition abc : list byte := [x61; x62; x63].

Definition filled32 : elasticarray :=
  EArr (2 ^ 31) (2 ^ 31)
    (Some (Block 8192 {[ 0 := x61; 1 := x62; 2 := x63 ]})).

Definition filled32_mem : mem :=
  Mem [Some 12288; Some 16384]
    [EvMallocEA true; EvFree None; EvRealloc None 3 (Some 4096);
     EvRealloc (Some 4096) (2 ^ 31) (Some 8192)] None.

(** The same, with a resize to 2^30 + 1 bytes before the resize to 2^31
    bytes. *)
Definition grown32 : elasticarray :=
  EArr (2 ^ 31) (2 ^ 31 + 2)
    (Some (Block 12288 {[ 0 := x61; 1 := x62; 2 := x63 ]})).

Definition grown32_mem : mem :=
  Mem [Some 16384]
    [EvMallocEA true; EvFree None; EvRealloc None 3 (Some 4096);
     EvRealloc (Some 4096) (2 ^ 30 + 1) (Some 8192);
     EvRealloc (Some 8192) (2 ^ 31 + 2) (Some 12288)] None.

(** A small array with spare space, and allocators that refuse or grant
    the next request. *)
Definition small_array : elasticarray :=
  EArr 4 16 (Some (Block 4096 {[ 0 := x61; 1 := x62; 2 := x63; 3 := x64 ]})).

Definition refusing : mem := Mem [None] [EvMallocEA true] None.

Definition granting : mem := Mem [Some 8192] [EvMallocEA true] None.

(** Eight bytes, and two batches of one and two records of four bytes. *)
Definition eight_bytes : list byte :=
  [x65; x66; x67; x68; x69; x6a; x6b; x6c].

Definition two_batches : list (list byte * Z) :=
  [([x61; x62; x63; x64], 1); (eight_bytes, 2)].

(** A function that empties the array and forgets what was recorded. *)
Definition emptying_fp (p : Z) (s : elasticarray * list Z)
  : elasticarray * list Z :=
  (EArr 0 0 None, []).

(** An array of two records of four bytes, and a function that records
    the address it is handed and deletes the last record of the array. *)
Definition two_records : elasticarray := EArr 8 8 (Some (Block 4096 ∅)).

Definition shrinking_fp (p : Z) (s : elasticarray * (mem * list Z))
  : elasticarray * (mem * list Z) :=
  let r := elasticarray_shrink (P := size32) (fst s) 1 4 (fst (snd s)) in
  (fst r, (snd r, snd (snd s) ++ [p])).

(** * Properties *)

Section Properties.

Context {P : Platform}.

(** ** Arithmetic on [size_t] *)

Lemma modulus_ge_2 : 2 <= modulus.
Proof.
  unfold modulus.
  change 2 with (2 ^ 1) at 1.
  apply Z.pow_le_mono_r; lia.
Qed.

Lemma SIZE_MAX_pos : 1 <= SIZE_MAX.
Proof. unfold SIZE_MAX. pose proof modulus_ge_2. lia. Qed.

Lemma wrap_small x : size_ok x -> wrap x = x.
Proof.
  unfold size_ok, SIZE_MAX, wrap. intros H.
  apply Z.mod_small. lia.
Qed.

Lemma wrap_range x : size_ok (wrap x).
Proof.
  unfold size_ok, SIZE_MAX, wrap.
  pose proof modulus_ge_2.
  pose proof (Z.mod_pos_bound x modulus). lia.
Qed.

(** One subtraction of the modulus brings a value of [modulus, 2 modulus)
    back into range. *)
Lemma wrap_once x : SIZE_MAX < x <= 2 * SIZE_MAX + 1 -> wrap x = x - modulus.
Proof.
  unfold SIZE_MAX, wrap. intros H.
  pose proof modulus_ge_2.
  replace x with ((x - modulus) + 1 * modulus) at 1 by lia.
  rewrite Z.mod_add by lia.
  apply Z.mod_small. lia.
Qed.

(** Unsigned division by a positive length decides the overflow of a
    product: [nrec > SIZE_MAX / reclen] exactly when [nrec * reclen] does
    not fit. *)
Lemma overflow_check nrec reclen :
  0 < reclen -> (SIZE_MAX / reclen < nrec <-> SIZE_MAX < nrec * reclen).
Proof.
  intros Hl.
  pose proof (Z.div_mod SIZE_MAX reclen ltac:(lia)) as Hd.
  pose proof (Z.mod_pos_bound SIZE_MAX reclen Hl) as Hm.
  split; intros H.
  - nia.
  - apply Z.div_lt_upper_bound; lia.
Qed.

Lemma overflow_check_b nrec reclen :
  0 < reclen ->
  (SIZE_MAX / reclen <? nrec) = (SIZE_MAX <? nrec * reclen).
Proof.
  intros Hl. pose proof (overflow_check nrec reclen Hl) as [H1 H2].
  destruct (Z.ltb_spec (SIZE_MAX / reclen) nrec),
           (Z.ltb_spec SIZE_MAX (nrec * reclen)); auto; lia.
Qed.

(** ** The four outcomes of [resize] *)

Lemma resize_free EA nsize m :
  resize_nalloc (alloc EA) nsize = 0 ->
  resize EA nsize m =
    (0, EArr nsize 0 None, logged m (EvFree (block_addr (buf EA)))).
Proof.
  intros H. unfold resize. rewrite H. reflexivity.
Qed.

Lemma resize_keep EA nsize m :
  resize_nalloc (alloc EA) nsize <> 0 ->
  resize_nalloc (alloc EA) nsize = alloc EA ->
  resize EA nsize m = (0, EArr nsize (alloc EA) (buf EA), m).
Proof.
  intros H0 H. unfold resize. rewrite H.
  rewrite H in H0.
  destruct (Z.eqb_spec (alloc EA) 0); [lia|].
  rewrite Z.eqb_refl. reflexivity.
Qed.

Lemma resize_refused EA nsize m :
  needs_realloc EA nsize -> refused m ->
  resize EA nsize m =
    (-1, EA,
     answered m (EvRealloc (block_addr (buf EA))
                   (resize_nalloc (alloc EA) nsize) None)).
Proof.
  intros [H0 H1] Hr. unfold resize.
  destruct (Z.eqb_spec (resize_nalloc (alloc EA) nsize) 0); [lia|].
  destruct (Z.eqb_spec (resize_nalloc (alloc EA) nsize) (alloc EA)); [lia|].
  unfold refused in Hr. destruct m as [ans lg er]. simpl in Hr.
  unfold c_realloc, bind, next_answer, emit, ret, answered. simpl.
  destruct ans as [|a rest]; simpl in *; [reflexivity|].
  subst a. reflexivity.
Qed.

Lemma resize_granted EA nsize m addr rest :
  needs_realloc EA nsize -> answers m = Some addr :: rest ->
  resize EA nsize m =
    (0,
     EArr nsize (resize_nalloc (alloc EA) nsize)
       (Some (Block addr
                (prefix_bytes (block_data (buf EA))
                   (resize_nalloc (alloc EA) nsize)))),
     answered m (EvRealloc (block_addr (buf EA))
                   (resize_nalloc (alloc EA) nsize) (Some addr))).
Proof.
  intros [H0 H1] Ha. unfold resize.
  destruct (Z.eqb_spec (resize_nalloc (alloc EA) nsize) 0); [lia|].
  destruct (Z.eqb_spec (resize_nalloc (alloc EA) nsize) (alloc EA)); [lia|].
  destruct m as [ans lg er]. simpl in Ha. subst ans.
  reflexivity.
Qed.

(** Every call of [resize] is one of the four. *)
Lemma resize_cases EA nsize m :
  (resize_nalloc (alloc EA) nsize = 0 /\
   resize EA nsize m =
     (0, EArr nsize 0 None, logged m (EvFree (block_addr (buf EA))))) \/
  (resize_nalloc (alloc EA) nsize <> 0 /\
   resize_nalloc (alloc EA) nsize = alloc EA /\
   resize EA nsize m = (0, EArr nsize (alloc EA) (buf EA), m)) \/
  (needs_realloc EA nsize /\ refused m /\
   resize EA nsize m =
     (-1, EA,
      answered m (EvRealloc (block_addr (buf EA))
                    (resize_nalloc (alloc EA) nsize) None))) \/
  (needs_realloc EA nsize /\
   exists addr rest, answers m = Some addr :: rest /\
   resize EA nsize m =
     (0,
      EArr nsize (resize_nalloc (alloc EA) nsize)
        (Some (Block addr
                 (prefix_bytes (block_data (buf EA))
                    (resize_nalloc (alloc EA) nsize)))),
      answered m (EvRealloc (block_addr (buf EA))
                    (resize_nalloc (alloc EA) nsize) (Some addr)))).
Proof.
  destruct (Z.eq_dec (resize_nalloc (alloc EA) nsize) 0) as [H0|H0].
  { left. split; [assumption|]. now apply resize_free. }
  destruct (Z.eq_dec (resize_nalloc (alloc EA) nsize) (alloc EA)) as [H1|H1].
  { right; left. repeat split; try assumption. now apply resize_keep. }
  assert (Hn : needs_realloc EA nsize) by (split; assumption).
  destruct (answers m) as [|[addr|] rest] eqn:Ha.
  - right; right; left. repeat split; try assumption.
    + unfold refused. now rewrite Ha.
    + apply resize_refused; [assumption|]. unfold refused. now rewrite Ha.
  - right; right; right. split; [assumption|].
    exists addr, rest. split; [reflexivity|]. now apply resize_granted with rest.
  - right; right; left. repeat split; try assumption.
    + unfold refused. now rewrite Ha.
    + apply resize_refused; [assumption|]. unfold refused. now rewrite Ha.
Qed.

(** [resize] reports a failure only when realloc was called and refused,
    and then the array is the one it was given. *)
Lemma resize_failure EA nsize m :
  fst (fst (resize EA nsize m)) <> 0 ->
  needs_realloc EA nsize /\ refused m /\
  resize EA nsize m =
    (-1, EA,
     answered m (EvRealloc (block_addr (buf EA))
                   (resize_nalloc (alloc EA) nsize) None)).
Proof.
  intros H.
  destruct (resize_cases EA nsize m)
    as [[_ E]|[(_ & _ & E)|[(Hn & Hr & E)|(_ & a & r & _ & E)]]];
    rewrite E in H; simpl in H; try lia.
  auto.
Qed.

(** ** The allocation policy *)

Lemma resize_nalloc_grow a t :
  size_ok a -> size_ok t -> a < t -> 2 * a <= SIZE_MAX ->
  resize_nalloc a t = Z.max t (2 * a).
Proof.
  intros Ha Ht Hlt H2. unfold resize_nalloc.
  destruct (Z.ltb_spec a t); [|lia].
  rewrite (wrap_small (a * 2)) by (unfold size_ok in *; lia).
  destruct (Z.ltb_spec (a * 2) t); lia.
Qed.

Lemma resize_nalloc_grow_wrapped a t :
  size_ok a -> size_ok t -> a < t -> SIZE_MAX < 2 * a ->
  resize_nalloc a t = t.
Proof.
  intros Ha Ht Hlt H2. unfold resize_nalloc.
  destruct (Z.ltb_spec a t); [|lia].
  rewrite (wrap_once (a * 2)) by (unfold size_ok in *; lia).
  unfold size_ok, SIZE_MAX in *.
  destruct (Z.ltb_spec (a * 2 - modulus) t); lia.
Qed.

Lemma resize_nalloc_shrink a t :
  size_ok a -> size_ok t -> t <= a -> 4 * t <= SIZE_MAX -> 4 * t < a ->
  resize_nalloc a t = 2 * t.
Proof.
  intros Ha Ht Hle H4 Hlt. unfold resize_nalloc.
  destruct (Z.ltb_spec a t); [lia|].
  rewrite (wrap_small (t * 4)) by (unfold size_ok in *; lia).
  destruct (Z.ltb_spec (t * 4) a); [|lia].
  rewrite wrap_small by (unfold size_ok in *; lia). lia.
Qed.

Lemma resize_nalloc_stay a t :
  size_ok a -> size_ok t -> t <= a -> 4 * t <= SIZE_MAX -> a <= 4 * t ->
  resize_nalloc a t = a.
Proof.
  intros Ha Ht Hle H4 Hlt. unfold resize_nalloc.
  destruct (Z.ltb_spec a t); [lia|].
  rewrite (wrap_small (t * 4)) by (unfold size_ok in *; lia).
  destruct (Z.ltb_spec (t * 4) a); lia.
Qed.

(** On success [resize] records the allocation it computed and the target
    size. *)
Lemma resize_success EA nsize m :
  fst (fst (resize EA nsize m)) = 0 ->
  alloc (snd (fst (resize EA nsize m))) = resize_nalloc (alloc EA) nsize /\
  size (snd (fst (resize EA nsize m))) = nsize.
Proof.
  intros H.
  destruct (resize_cases EA nsize m)
    as [[H0 E]|[(_ & H1 & E)|[(Hn & Hr & E)|(_ & a & r & _ & E)]]];
    rewrite E in *; simpl in *; auto; lia.
Qed.

(** The events a call of [resize] adds to the log never include a
    reallocation to zero bytes. *)
Lemma resize_no_zero_realloc EA nsize m :
  exists evs,
    log (snd (resize EA nsize m)) = log m ++ evs /\
    forall p a, EvRealloc p 0 a ∉ evs.
Proof.
  destruct (resize_cases EA nsize m)
    as [[H0 E]|[(_ & H1 & E)|[([Hn _] & Hr & E)|([Hn _] & a & r & _ & E)]]];
    rewrite E; simpl.
  - eexists; split; [reflexivity|]. intros p a Hin.
    apply list_elem_of_singleton in Hin. discriminate.
  - exists []. split; [now rewrite app_nil_r|]. intros p a Hin.
    now apply not_elem_of_nil in Hin.
  - eexists; split; [reflexivity|]. intros p a' Hin.
    apply list_elem_of_singleton in Hin. congruence.
  - eexists; split; [reflexivity|]. intros p a' Hin.
    apply list_elem_of_singleton in Hin. congruence.
Qed.

(** C3 (amended).  For a current allocation size [A] and a target [T]:
    when [A < T] the new allocation size is [max(T, 2A)] if [2A] is
    representable and [T] if it is not; when [T <= A] and [4T] is
    representable, it is [2T] if [A > 4T] and [A] otherwise.  A successful
    call records that size and the target.  Whenever the computed size is
    0 the storage is released with free (storage absent, allocation 0) and
    no reallocation to zero bytes is ever issued. *)
Theorem resize_policy EA nsize m :
  wf EA -> size_ok nsize ->
  (alloc EA < nsize ->
   resize_nalloc (alloc EA) nsize =
     if 2 * alloc EA <=? SIZE_MAX then Z.max nsize (2 * alloc EA) else nsize) /\
  (nsize <= alloc EA -> 4 * nsize <= SIZE_MAX ->
   resize_nalloc (alloc EA) nsize =
     if 4 * nsize <? alloc EA then 2 * nsize else alloc EA) /\
  (fst (fst (resize EA nsize m)) = 0 ->
   alloc (snd (fst (resize EA nsize m))) = resize_nalloc (alloc EA) nsize /\
   size (snd (fst (resize EA nsize m))) = nsize) /\
  (resize_nalloc (alloc EA) nsize = 0 ->
   resize EA nsize m =
     (0, EArr nsize 0 None, logged m (EvFree (block_addr (buf EA))))) /\
  (exists evs,
     log (snd (resize EA nsize m)) = log m ++ evs /\
     forall p a, EvRealloc p 0 a ∉ evs).
Proof.
  intros [Hs Ha] Ht. repeat split.
  - intros Hlt. destruct (Z.leb_spec (2 * alloc EA) SIZE_MAX).
    + now apply resize_nalloc_grow.
    + now apply resize_nalloc_grow_wrapped.
  - intros Hle H4. destruct (Z.ltb_spec (4 * nsize) (alloc EA)).
    + now apply resize_nalloc_shrink.
    + now apply resize_nalloc_stay.
  - now apply resize_success.
  - now apply resize_success.
  - apply resize_free.
  - apply resize_no_zero_realloc.
Qed.

(** ** Overflow checks *)

Lemma elasticarray_resize_overflow EA nrec reclen m :
  0 < reclen -> SIZE_MAX < nrec * reclen ->
  elasticarray_resize EA nrec reclen m =
    (-1, EA, Mem (answers m) (log m) (Some ENOMEM)).
Proof.
  intros Hl Ho. unfold elasticarray_resize.
  rewrite overflow_check_b by assumption.
  destruct (Z.ltb_spec SIZE_MAX (nrec * reclen)); [reflexivity|lia].
Qed.

Lemma elasticarray_resize_fits EA nrec reclen m :
  0 < reclen -> 0 <= nrec -> nrec * reclen <= SIZE_MAX ->
  elasticarray_resize EA nrec reclen m =
    let r := resize EA (nrec * reclen) m in
    (if fst (fst r) =? 0 then 0 else -1, snd (fst r), snd r).
Proof.
  intros Hl Hn Ho. unfold elasticarray_resize.
  rewrite overflow_check_b by assumption.
  destruct (Z.ltb_spec SIZE_MAX (nrec * reclen)); [lia|].
  rewrite wrap_small by (unfold size_ok; nia).
  unfold bind. destruct (resize EA (nrec * reclen) m) as [[rc EA'] m'].
  simpl. destruct (rc =? 0); reflexivity.
Qed.

(** The test of [elasticarray_append]: it holds exactly when the product
    or the sum does not fit. *)
Lemma append_check EA nrec reclen :
  0 < reclen -> 0 <= nrec -> size_ok (size EA) ->
  (SIZE_MAX / reclen <? nrec)
    || (wrap (SIZE_MAX - size EA) <? wrap (nrec * reclen))
  = (SIZE_MAX <? size EA + nrec * reclen).
Proof.
  intros Hl Hn Hs. rewrite overflow_check_b by assumption.
  destruct (Z.ltb_spec SIZE_MAX (nrec * reclen)); simpl.
  - unfold size_ok in Hs. symmetry. apply Z.ltb_lt. lia.
  - rewrite (wrap_small (nrec * reclen)) by (unfold size_ok; nia).
    rewrite wrap_small by (unfold size_ok in *; lia).
    destruct (Z.ltb_spec (SIZE_MAX - size EA) (nrec * reclen)),
             (Z.ltb_spec SIZE_MAX (size EA + nrec * reclen)); auto; lia.
Qed.

Lemma elasticarray_append_overflow EA src nrec reclen m :
  0 < reclen -> 0 <= nrec -> size_ok (size EA) ->
  SIZE_MAX < size EA + nrec * reclen ->
  elasticarray_append EA src nrec reclen m =
    (Some (-1, EA), Mem (answers m) (log m) (Some ENOMEM)).
Proof.
  intros Hl Hn Hs Ho. unfold elasticarray_append.
  rewrite append_check by assumption.
  destruct (Z.ltb_spec SIZE_MAX (size EA + nrec * reclen)); [reflexivity|lia].
Qed.

Lemma elasticarray_append_fits EA src nrec reclen m :
  0 < reclen -> 0 <= nrec -> size_ok (size EA) ->
  size EA + nrec * reclen <= SIZE_MAX ->
  elasticarray_append EA src nrec reclen m =
    let r := resize EA (size EA + nrec * reclen) m in
    let EA' := snd (fst r) in
    if fst (fst r) =? 0 then
      if 0 <? nrec then
        (match buf EA' with
         | Some b =>
             if size EA + nrec * reclen <=? alloc EA' then
               Some (0,
                     EArr (size EA') (alloc EA')
                       (Some (Block (b_addr b)
                                (memcpy (b_data b) (size EA) src
                                   (nrec * reclen)))))
             else None
         | None => None
         end,
         snd r)
      else (Some (0, EA'), snd r)
    else (Some (-1, EA'), snd r).
Proof.
  intros Hl Hn Hs Ho. unfold elasticarray_append.
  rewrite append_check by assumption.
  destruct (Z.ltb_spec SIZE_MAX (size EA + nrec * reclen)); [lia|].
  rewrite !(wrap_small (nrec * reclen)) by (unfold size_ok in *; nia).
  rewrite wrap_small by (unfold size_ok in *; nia).
  unfold bind.
  destruct (resize EA (size EA + nrec * reclen) m) as [[rc EA'] m'].
  simpl. destruct (rc =? 0); [|reflexivity].
  destruct (0 <? nrec); [|reflexivity].
  destruct (buf EA'); [|reflexivity].
  destruct (size EA + nrec * reclen <=? alloc EA'); reflexivity.
Qed.

Lemma elasticarray_init_overflow nrec reclen m :
  0 < reclen -> SIZE_MAX < nrec * reclen ->
  elasticarray_init nrec reclen m =
    match answers m with
    | Some _ :: rest =>
        (None,
         Mem rest (log m ++ [EvMallocEA true; EvFree None; EvFreeEA])
           (Some ENOMEM))
    | _ => (None, answered m (EvMallocEA false))
    end.
Proof.
  intros Hl Ho. unfold elasticarray_init, malloc_struct, bind, next_answer.
  destruct m as [ans lg er]. simpl.
  destruct ans as [|[a|] rest]; simpl; try reflexivity.
  rewrite elasticarray_resize_overflow by assumption. simpl.
  unfold c_free, free_struct, emit, ret. simpl.
  rewrite <- !app_assoc. reflexivity.
Qed.

(** C4.  When [nrec * reclen] exceeds [SIZE_MAX], elasticarray_resize
    fails with errno set to ENOMEM, the array is the one it was given and
    the allocator has not been called; elasticarray_append does the same
    when the logical size plus [nrec * reclen] exceeds [SIZE_MAX];
    elasticarray_init returns NULL, having requested no storage and freed
    the structure if it had obtained one.  A record count of [SIZE_MAX]
    with a record length of 2 is such a case for all three. *)
Theorem overflow_fails EA src nrec reclen m :
  0 < reclen -> 0 <= nrec -> size_ok (size EA) ->
  (SIZE_MAX < nrec * reclen ->
   elasticarray_resize EA nrec reclen m =
     (-1, EA, Mem (answers m) (log m) (Some ENOMEM))) /\
  (SIZE_MAX < size EA + nrec * reclen ->
   elasticarray_append EA src nrec reclen m =
     (Some (-1, EA), Mem (answers m) (log m) (Some ENOMEM))) /\
  (SIZE_MAX < nrec * reclen ->
   elasticarray_init nrec reclen m =
     match answers m with
     | Some _ :: rest =>
         (None,
          Mem rest (log m ++ [EvMallocEA true; EvFree None; EvFreeEA])
            (Some ENOMEM))
     | _ => (None, answered m (EvMallocEA false))
     end) /\
  elasticarray_append EA src SIZE_MAX 2 m =
    (Some (-1, EA), Mem (answers m) (log m) (Some ENOMEM)) /\
  fst (elasticarray_init SIZE_MAX 2 m) = None /\
  (forall p n a, EvRealloc p n a ∉ log m ->
     EvRealloc p n a ∉ log (snd (elasticarray_init SIZE_MAX 2 m))).
Proof.
  intros Hl Hn Hs. pose proof SIZE_MAX_pos as Hp.
  assert (Hi : elasticarray_init SIZE_MAX 2 m =
    match answers m with
    | Some _ :: rest =>
        (None,
         Mem rest (log m ++ [EvMallocEA true; EvFree None; EvFreeEA])
           (Some ENOMEM))
    | _ => (None, answered m (EvMallocEA false))
    end) by (apply elasticarray_init_overflow; lia).
  repeat split.
  - now apply elasticarray_resize_overflow.
  - now apply elasticarray_append_overflow.
  - now apply elasticarray_init_overflow.
  - apply elasticarray_append_overflow; unfold size_ok in *; lia.
  - rewrite Hi. destruct (answers m) as [|[a|] rest]; reflexivity.
  - intros p n a Hnot. rewrite Hi.
    destruct (answers m) as [|[a'|] rest]; simpl; intros Hin;
      apply elem_of_app in Hin as [Hin|Hin]; try contradiction;
      repeat (apply elem_of_cons in Hin as [Hin|Hin]; [discriminate|]);
      now apply not_elem_of_nil in Hin.
Qed.

(** ** Failure of the reallocation *)

Lemma shrink_nsize_le EA nrec reclen :
  size_ok (size EA) ->
  0 <= shrink_nsize EA nrec reclen <= size EA.
Proof.
  intros Hs. unfold shrink_nsize.
  destruct (SIZE_MAX / reclen <? nrec); simpl; [unfold size_ok in Hs; lia|].
  destruct (Z.ltb_spec (size EA) (wrap (nrec * reclen)));
    [unfold size_ok in Hs; lia|].
  pose proof (wrap_range (nrec * reclen)) as Hw.
  rewrite wrap_small; unfold size_ok in *; lia.
Qed.

Lemma elasticarray_truncate_refused EA m :
  truncate_needs_realloc EA -> refused m ->
  elasticarray_truncate EA m =
    (-1, EA, answered m (EvRealloc (block_addr (buf EA)) (size EA) None)).
Proof.
  intros [H0 H1] Hr. unfold elasticarray_truncate.
  destruct (Z.eqb_spec (size EA) 0); [lia|].
  destruct (Z.ltb_spec (size EA) (alloc EA)); [|lia].
  unfold refused in Hr. destruct m as [ans lg er]. simpl in Hr.
  unfold c_realloc, bind, next_answer, emit, ret, answered. simpl.
  destruct ans as [|a rest]; simpl in *; [reflexivity|].
  subst a. reflexivity.
Qed.

Lemma elasticarray_shrink_refused EA nrec reclen m :
  needs_realloc EA (shrink_nsize EA nrec reclen) -> refused m ->
  elasticarray_shrink EA nrec reclen m =
    (EArr (shrink_nsize EA nrec reclen) (alloc EA) (buf EA),
     answered m
       (EvRealloc (block_addr (buf EA))
          (resize_nalloc (alloc EA) (shrink_nsize EA nrec reclen)) None)).
Proof.
  intros Hn Hr. unfold elasticarray_shrink, bind.
  rewrite resize_refused by assumption. reflexivity.
Qed.

Lemma elasticarray_init_refused nrec reclen m a :
  0 < reclen -> 0 <= nrec -> nrec * reclen <= SIZE_MAX ->
  needs_realloc (EArr 0 0 None) (nrec * reclen) ->
  hd None (answers m) = Some a -> refused (answered m (EvMallocEA true)) ->
  elasticarray_init nrec reclen m =
    (None,
     Mem (tl (tl (answers m)))
       (log m ++ [EvMallocEA true;
                  EvRealloc None (resize_nalloc 0 (nrec * reclen)) None;
                  EvFree None; EvFreeEA])
       (errno m)).
Proof.
  intros Hl Hn Ho Hneed Ha Hr.
  unfold elasticarray_init, malloc_struct, bind, next_answer.
  destruct m as [ans lg er]. simpl in *.
  destruct ans as [|a' rest]; simpl in *; [discriminate|].
  inversion Ha; subst a'. simpl.
  rewrite elasticarray_resize_fits by assumption.
  cbv zeta.
  rewrite (resize_refused (EArr 0 0 None) (nrec * reclen)
             (Mem rest (lg ++ [EvMallocEA true]) er) Hneed Hr).
  simpl. unfold c_free, free_struct, emit, ret, answered. simpl.
  rewrite <- !app_assoc. reflexivity.
Qed.

(** C2.  Suppose that the allocator refuses the next request.  A call of
    the resize primitive that needs a reallocation then returns -1 with
    the array as it was given (size, allocation and storage); so do
    elasticarray_resize and elasticarray_append, and
    elasticarray_truncate when it has spare space to release.
    elasticarray_init, after it has obtained its structure, returns NULL
    and frees the structure.  elasticarray_shrink has no failure to
    report: it records the target size and keeps the allocation and the
    storage it had, and that allocation is at least the target. *)
Theorem realloc_failure EA m :
  refused m ->
  (forall nsize, needs_realloc EA nsize ->
     resize EA nsize m =
       (-1, EA,
        answered m (EvRealloc (block_addr (buf EA))
                      (resize_nalloc (alloc EA) nsize) None))) /\
  (forall nrec reclen,
     0 < reclen -> 0 <= nrec -> nrec * reclen <= SIZE_MAX ->
     needs_realloc EA (nrec * reclen) ->
     elasticarray_resize EA nrec reclen m =
       (-1, EA,
        answered m (EvRealloc (block_addr (buf EA))
                      (resize_nalloc (alloc EA) (nrec * reclen)) None))) /\
  (forall src nrec reclen,
     0 < reclen -> 0 <= nrec -> size_ok (size EA) ->
     size EA + nrec * reclen <= SIZE_MAX ->
     needs_realloc EA (size EA + nrec * reclen) ->
     elasticarray_append EA src nrec reclen m =
       (Some (-1, EA),
        answered m
          (EvRealloc (block_addr (buf EA))
             (resize_nalloc (alloc EA) (size EA + nrec * reclen)) None))) /\
  (truncate_needs_realloc EA ->
   elasticarray_truncate EA m =
     (-1, EA, answered m (EvRealloc (block_addr (buf EA)) (size EA) None))) /\
  (forall nrec reclen m0 a,
     0 < reclen -> 0 <= nrec -> nrec * reclen <= SIZE_MAX ->
     needs_realloc (EArr 0 0 None) (nrec * reclen) ->
     hd None (answers m0) = Some a ->
     answered m0 (EvMallocEA true) = m ->
     elasticarray_init nrec reclen m0 =
       (None,
        Mem (tl (answers m))
          (log m ++ [EvRealloc None (resize_nalloc 0 (nrec * reclen)) None;
                     EvFree None; EvFreeEA])
          (errno m))) /\
  (forall nrec reclen,
     needs_realloc EA (shrink_nsize EA nrec reclen) ->
     elasticarray_shrink EA nrec reclen m =
       (EArr (shrink_nsize EA nrec reclen) (alloc EA) (buf EA),
        answered m
          (EvRealloc (block_addr (buf EA))
             (resize_nalloc (alloc EA) (shrink_nsize EA nrec reclen)) None))
     /\
     (size_ok (size EA) -> size EA <= alloc EA ->
      shrink_nsize EA nrec reclen <= alloc EA)).
Proof.
  intros Hr. repeat split.
  - intros nsize Hn. now apply resize_refused.
  - intros nrec reclen Hl Hn Ho Hneed.
    rewrite elasticarray_resize_fits by assumption. cbv zeta.
    rewrite resize_refused by assumption. reflexivity.
  - intros src nrec reclen Hl Hn Hs Ho Hneed.
    rewrite elasticarray_append_fits by assumption. cbv zeta.
    rewrite resize_refused by assumption. reflexivity.
  - intros Hn. now apply elasticarray_truncate_refused.
  - intros nrec reclen m0 a Hl Hn Ho Hneed Ha Hm.
    subst m.
    rewrite (elasticarray_init_refused nrec reclen m0 a) by assumption.
    simpl. rewrite <- !app_assoc. reflexivity.
  - now apply elasticarray_shrink_refused.
  - intros Hs Hle. pose proof (shrink_nsize_le EA nrec reclen Hs). lia.
Qed.

(** ** Shrinking *)

Lemma resize_errno EA nsize m : errno (snd (resize EA nsize m)) = errno m.
Proof.
  destruct (resize_cases EA nsize m)
    as [[_ E]|[(_ & _ & E)|[(_ & _ & E)|(_ & a & r & _ & E)]]];
    rewrite E; reflexivity.
Qed.

Lemma elasticarray_shrink_size EA nrec reclen m :
  size (fst (elasticarray_shrink EA nrec reclen m)) =
    shrink_nsize EA nrec reclen.
Proof.
  unfold elasticarray_shrink, bind.
  destruct (resize_cases EA (shrink_nsize EA nrec reclen) m)
    as [[_ E]|[(_ & _ & E)|[(_ & _ & E)|(_ & a & r & _ & E)]]];
    rewrite E; reflexivity.
Qed.

Lemma elasticarray_shrink_errno EA nrec reclen m :
  errno (snd (elasticarray_shrink EA nrec reclen m)) = errno m.
Proof.
  unfold elasticarray_shrink, bind.
  pose proof (resize_errno EA (shrink_nsize EA nrec reclen) m) as He.
  destruct (resize EA (shrink_nsize EA nrec reclen) m) as [[rc EA'] m'].
  simpl in *. destruct (rc =? 0); assumption.
Qed.

(** The amount kept, without the wrap-around. *)
Lemma shrink_nsize_spec EA nrec reclen :
  0 < reclen -> 0 <= nrec -> size_ok (size EA) ->
  shrink_nsize EA nrec reclen =
    if size EA <? nrec * reclen then 0 else size EA - nrec * reclen.
Proof.
  intros Hl Hn Hs. unfold shrink_nsize.
  rewrite overflow_check_b by assumption.
  destruct (Z.ltb_spec SIZE_MAX (nrec * reclen)); simpl.
  - destruct (Z.ltb_spec (size EA) (nrec * reclen));
      [reflexivity|unfold size_ok in Hs; lia].
  - rewrite (wrap_small (nrec * reclen)) by (unfold size_ok; nia).
    destruct (Z.ltb_spec (size EA) (nrec * reclen)); [reflexivity|].
    apply wrap_small. unfold size_ok in *. nia.
Qed.

(** C6.  elasticarray_shrink returns no error code and leaves errno
    alone; afterwards the number of records is max(0, previous count -
    nrec), and when nrec exceeds the previous count the array is empty. *)
Theorem shrink_count EA nrec reclen m :
  0 < reclen -> 0 <= nrec -> size_ok (size EA) ->
  elasticarray_getsize (fst (elasticarray_shrink EA nrec reclen m)) reclen =
    Z.max 0 (elasticarray_getsize EA reclen - nrec) /\
  (elasticarray_getsize EA reclen < nrec ->
   size (fst (elasticarray_shrink EA nrec reclen m)) = 0 /\
   elasticarray_getsize (fst (elasticarray_shrink EA nrec reclen m)) reclen = 0) /\
  errno (snd (elasticarray_shrink EA nrec reclen m)) = errno m.
Proof.
  intros Hl Hn Hs. unfold elasticarray_getsize.
  rewrite elasticarray_shrink_size, shrink_nsize_spec by assumption.
  pose proof (Z.div_mod (size EA) reclen ltac:(lia)) as Hd.
  pose proof (Z.mod_pos_bound (size EA) reclen Hl) as Hm.
  repeat split.
  - destruct (Z.ltb_spec (size EA) (nrec * reclen)).
    + rewrite Z.div_0_l by lia.
      assert (size EA / reclen < nrec) by (apply Z.div_lt_upper_bound; lia).
      lia.
    + replace (size EA - nrec * reclen) with (size EA + (- nrec) * reclen) by lia.
      rewrite Z.div_add by lia.
      assert (nrec <= size EA / reclen) by (apply Z.div_le_lower_bound; lia).
      lia.
  - destruct (Z.ltb_spec (size EA) (nrec * reclen)); [reflexivity|nia].
  - destruct (Z.ltb_spec (size EA) (nrec * reclen)); [|nia].
    apply Z.div_0_l. lia.
  - apply elasticarray_shrink_errno.
Qed.

Lemma resize_nalloc_zero a : 0 <= a -> resize_nalloc a 0 = 0.
Proof.
  intros Ha. unfold resize_nalloc.
  destruct (Z.ltb_spec a 0); [lia|].
  change (0 * 4) with 0. change (0 * 2) with 0.
  unfold wrap. rewrite Z.mod_0_l by (pose proof modulus_ge_2; lia).
  destruct (Z.ltb_spec 0 a); lia.
Qed.

(** C10.  When [nrec > SIZE_MAX / reclen], elasticarray_shrink keeps
    nothing: the target size is 0, the storage is released and the array is
    empty; errno is not set and no reallocation is attempted.  This is what
    a call that asks for more records than the array holds does. *)
Theorem shrink_overflow_empties EA nrec reclen m :
  0 <= alloc EA -> SIZE_MAX / reclen < nrec ->
  shrink_nsize EA nrec reclen = 0 /\
  elasticarray_shrink EA nrec reclen m =
    (EArr 0 0 None, logged m (EvFree (block_addr (buf EA)))) /\
  (forall k, size EA < wrap (k * reclen) ->
     elasticarray_shrink EA k reclen m = elasticarray_shrink EA nrec reclen m).
Proof.
  intros Ha Ho.
  assert (Hz : shrink_nsize EA nrec reclen = 0).
  { unfold shrink_nsize.
    destruct (Z.ltb_spec (SIZE_MAX / reclen) nrec); [reflexivity|lia]. }
  split; [assumption|].
  split.
  - unfold elasticarray_shrink, bind. rewrite Hz.
    rewrite resize_free by (now apply resize_nalloc_zero).
    reflexivity.
  - intros k Hk. unfold elasticarray_shrink. rewrite Hz.
    replace (shrink_nsize EA k reclen) with 0; [reflexivity|].
    unfold shrink_nsize.
    destruct (Z.ltb_spec (size EA) (wrap (k * reclen))); [|lia].
    now rewrite orb_true_r.
Qed.

(** ** Truncation and export *)

Lemma prefix_bytes_lookup (d : gmap Z byte) n k :
  k < n -> prefix_bytes d n !! k = d !! k.
Proof.
  intros Hk. unfold prefix_bytes. destruct (d !! k) as [b|] eqn:E.
  - apply map_lookup_filter_Some. split; [assumption|exact Hk].
  - apply map_lookup_filter_None. left. assumption.
Qed.


(** The three outcomes of [elasticarray_truncate]. *)
Lemma elasticarray_truncate_cases EA m :
  (size EA = 0 /\
   elasticarray_truncate EA m =
     (0, EArr (size EA) 0 None, logged m (EvFree (block_addr (buf EA))))) \/
  (size EA <> 0 /\ alloc EA <= size EA /\
   elasticarray_truncate EA m = (0, EA, m)) \/
  (truncate_needs_realloc EA /\ refused m /\
   elasticarray_truncate EA m =
     (-1, EA, answered m (EvRealloc (block_addr (buf EA)) (size EA) None))) \/
  (truncate_needs_realloc EA /\
   exists addr rest, answers m = Some addr :: rest /\
   elasticarray_truncate EA m =
     (0,
      EArr (size EA) (size EA)
        (Some (Block addr (prefix_bytes (block_data (buf EA)) (size EA)))),
      answered m (EvRealloc (block_addr (buf EA)) (size EA) (Some addr)))).
Proof.
  unfold elasticarray_truncate.
  destruct (Z.eqb_spec (size EA) 0) as [H0|H0].
  { left. split; [assumption|reflexivity]. }
  destruct (Z.ltb_spec (size EA) (alloc EA)) as [H1|H1].
  2:{ right; left. repeat split; assumption. }
  assert (Hn : truncate_needs_realloc EA) by (split; assumption).
  destruct m as [ans lg er].
  destruct ans as [|[addr|] rest].
  - right; right; left. repeat split; assumption || reflexivity.
  - right; right; right. split; [assumption|].
    exists addr, rest. split; reflexivity.
  - right; right; left. repeat split; assumption || reflexivity.
Qed.

(** The worked example: ten records of eight bytes, on a platform where
    80 is a [size_t] value and an allocator that grants the structure and
    the storage. *)
Lemma init_10_8 m a b rest :
  80 <= SIZE_MAX -> answers m = Some a :: Some b :: rest ->
  elasticarray_init 10 8 m =
    (Some (EArr 80 80 (Some (Block b (prefix_bytes ∅ 80)))),
     Mem rest (log m ++ [EvMallocEA true; EvRealloc None 80 (Some b)])
       (errno m)).
Proof.
  intros H80 Ha.
  unfold elasticarray_init, malloc_struct, bind, next_answer.
  destruct m as [ans lg er]. simpl in *. subst ans. simpl.
  rewrite elasticarray_resize_fits by lia. cbv zeta.
  assert (Hna : resize_nalloc 0 (10 * 8) = 80).
  { rewrite resize_nalloc_grow; unfold size_ok; lia. }
  rewrite (resize_granted (EArr 0 0 None) (10 * 8)
             (Mem (Some b :: rest) (lg ++ [EvMallocEA true]) er) b rest).
  - simpl. rewrite Hna. unfold ret, answered. simpl.
    rewrite <- !app_assoc. reflexivity.
  - split; simpl; rewrite Hna; lia.
  - reflexivity.
Qed.

(** C8.  elasticarray_truncate releases the spare space.  When the
    logical size is 0 it hands the storage to free and leaves the array
    with no storage and an allocation of 0.  When the logical size is not 0
    and is below the allocation, it makes one call, realloc of the storage
    to exactly the logical size: if the allocator grants it, the call
    returns 0, the storage is the block obtained, which holds the bytes
    that were below the logical size, and the allocation equals the logical
    size; if the allocator refuses, the call returns -1 and the array is
    the one it was given.  When the logical size is not 0 and there is no
    spare space, it returns 0 without a call and the array is the one it
    was given.  So a successful truncation of an array whose logical size
    is within its allocation leaves the allocation equal to the logical
    size, which it does not change, and the bytes below the logical size
    are the ones that were there.  After elasticarray_init(10, 8), a
    truncation makes no call and the allocation is exactly 80 bytes. *)
Theorem truncate_exact :
  (forall EA m,
     (size EA = 0 ->
      elasticarray_truncate EA m =
        (0, EArr 0 0 None, logged m (EvFree (block_addr (buf EA))))) /\
     (size EA <> 0 -> size EA < alloc EA ->
      forall addr rest, answers m = Some addr :: rest ->
      elasticarray_truncate EA m =
        (0,
         EArr (size EA) (size EA)
           (Some (Block addr (prefix_bytes (block_data (buf EA)) (size EA)))),
         answered m
           (EvRealloc (block_addr (buf EA)) (size EA) (Some addr)))) /\
     (size EA <> 0 -> size EA < alloc EA -> refused m ->
      elasticarray_truncate EA m =
        (-1, EA,
         answered m (EvRealloc (block_addr (buf EA)) (size EA) None))) /\
     (size EA <> 0 -> alloc EA <= size EA ->
      elasticarray_truncate EA m = (0, EA, m)) /\
     (size EA <= alloc EA ->
      fst (fst (elasticarray_truncate EA m)) = 0 ->
      alloc (snd (fst (elasticarray_truncate EA m))) = size EA /\
      size (snd (fst (elasticarray_truncate EA m))) = size EA /\
      (forall k, 0 <= k < size EA ->
         block_data (buf (snd (fst (elasticarray_truncate EA m)))) !! k =
           block_data (buf EA) !! k))) /\
  (forall m a b rest,
     80 <= SIZE_MAX -> answers m = Some a :: Some b :: rest ->
     exists EA m1,
       elasticarray_init 10 8 m = (Some EA, m1) /\
       elasticarray_truncate EA m1 = (0, EA, m1) /\
       alloc EA = 80 /\ size EA = 80 /\
       fst (fst (elasticarray_truncate EA m1)) = 0 /\
       alloc (snd (fst (elasticarray_truncate EA m1))) = 80 /\
       size (snd (fst (elasticarray_truncate EA m1))) = 80).
Proof.
  split.
  - intros EA m.
    destruct (elasticarray_truncate_cases EA m)
      as [[H0 E]|[(H0 & H1 & E)|[([Hn0 Hn1] & Hr & E)
                                |([Hn0 Hn1] & a & r & Ha & E)]]];
      rewrite E; simpl.
    + split; [intros _; now rewrite H0|].
      split; [intros Hz; lia|]. split; [intros Hz; lia|].
      split; [intros Hz; lia|].
      intros Hle _. split; [lia|]. split; [reflexivity|]. intros k Hk. lia.
    + split; [intros Hz; lia|].
      split; [intros _ Hlt; lia|]. split; [intros _ Hlt; lia|].
      split; [reflexivity|].
      intros Hle _. split; [lia|]. split; reflexivity.
    + split; [intros Hz; lia|].
      split; [intros _ _ addr rest Ha; unfold refused in Hr;
              rewrite Ha in Hr; discriminate|].
      split; [reflexivity|]. split; [intros _ Hge; lia|].
      intros _ Hrc. lia.
    + split; [intros Hz; lia|].
      split; [intros _ _ addr rest Ha'; rewrite Ha in Ha';
              inversion Ha'; subst; reflexivity|].
      split; [intros _ _ Hr; unfold refused in Hr; rewrite Ha in Hr;
              discriminate|].
      split; [intros _ Hge; lia|].
      intros _ _. split; [reflexivity|]. split; [reflexivity|].
      intros k Hk. apply prefix_bytes_lookup. lia.
  - intros m a b rest H80 Ha.
    rewrite (init_10_8 m a b rest H80 Ha).
    eexists _, _. split; [reflexivity|].
    repeat split; reflexivity.
Qed.

(** Truncation leaves the logical size alone, whatever its outcome. *)
Lemma elasticarray_truncate_size EA m :
  size (snd (fst (elasticarray_truncate EA m))) = size EA.
Proof.
  destruct (elasticarray_truncate_cases EA m)
    as [[H0 E]|[(H0 & H1 & E)|[(Hn & Hr & E)|(Hn & a & r & Ha & E)]]];
    rewrite E; reflexivity.
Qed.


(** ** Iteration *)

Lemma getsize_bounds EA reclen :
  0 < reclen -> size_ok (size EA) ->
  0 <= elasticarray_getsize EA reclen /\
  elasticarray_getsize EA reclen * reclen <= size EA.
Proof.
  intros Hl [Hs0 Hs1]. unfold elasticarray_getsize. split.
  - apply Z.div_pos; lia.
  - pose proof (Z.mul_div_le (size EA) reclen Hl). lia.
Qed.

(** The address [elasticarray_iter] passes for record [i]. *)
Lemma iter_address EA reclen i :
  0 < reclen -> size_ok (size EA) ->
  0 <= i < elasticarray_getsize EA reclen ->
  elasticarray_get EA reclen i = ptr_of (buf EA) + i * reclen.
Proof.
  intros Hl Hs Hi. pose proof (getsize_bounds EA reclen Hl Hs) as [Hn Hm].
  unfold elasticarray_get. rewrite wrap_small; [lia|].
  unfold size_ok in *. nia.
Qed.

Lemma iter_loop_spec {W : Type} EA reclen
    (fp : Z -> elasticarray * W -> elasticarray * W) :
  keeps_size fp -> 0 < reclen -> size_ok (size EA) ->
  forall fuel i s,
    size (fst s) = size EA ->
    0 <= i <= elasticarray_getsize EA reclen ->
    (Z.to_nat (elasticarray_getsize EA reclen - i) < fuel)%nat ->
    iter_loop fuel reclen fp i s =
      Some (fold_left (fun s j => fp (ptr_of (buf (fst s)) + j * reclen) s)
              (seqZ i (elasticarray_getsize EA reclen - i)) s).
Proof.
  intros Hk Hl Hs. pose proof (getsize_bounds EA reclen Hl Hs) as [Hn Hm].
  induction fuel as [|fuel IH]; intros i s Hsz Hi Hf; [lia|].
  simpl.
  assert (Hg : elasticarray_getsize (fst s) reclen
               = elasticarray_getsize EA reclen)
    by (unfold elasticarray_getsize; now rewrite Hsz).
  rewrite Hg.
  destruct (Z.ltb_spec i (elasticarray_getsize EA reclen)) as [Hlt|Hge].
  - rewrite iter_address
      by (assumption || (rewrite Hsz; assumption) || (rewrite Hg; lia)).
    rewrite wrap_small by (unfold size_ok in *; nia).
    rewrite IH by (lia || (rewrite Hk; exact Hsz)).
    rewrite (seqZ_cons i) by lia. simpl.
    replace (Z.succ i) with (i + 1) by lia.
    replace (Z.pred (elasticarray_getsize EA reclen - i))
      with (elasticarray_getsize EA reclen - (i + 1)) by lia.
    reflexivity.
  - replace (elasticarray_getsize EA reclen - i) with 0 by lia.
    reflexivity.
Qed.

(** Recording the argument of every call gives the list of arguments. *)
Lemma fold_left_calls EA reclen (l : list Z) (acc : list Z) :
  fold_left (fun s j => record_call (ptr_of (buf (fst s)) + j * reclen) s)
    l (EA, acc)
  = (EA, acc ++ ((fun j => ptr_of (buf EA) + j * reclen) <$> l)).
Proof.
  revert acc. induction l as [|x l IH]; intros acc; simpl.
  - now rewrite app_nil_r.
  - unfold record_call at 2. simpl. rewrite IH.
    rewrite <- app_assoc. reflexivity.
Qed.

Lemma record_call_keeps_size : keeps_size record_call.
Proof. intros p s. reflexivity. Qed.

(** C9 (amended).  Let [fp] leave the logical size of the array as it is.
    Then elasticarray_iter terminates (any bound above the record count is
    enough) and its effect is that of calling [fp] on the records
    0, 1, ..., count - 1 in this order, once each, where count is
    elasticarray_getsize when the call starts and record [i] is passed as
    the address of the storage plus [i * reclen]; for a function that only
    records the address it is handed, the addresses of these records, in
    this order, are what it has recorded. *)
Theorem iter_in_order {W : Type} EA reclen
    (fp : Z -> elasticarray * W -> elasticarray * W) w fuel :
  keeps_size fp -> 0 < reclen -> size_ok (size EA) ->
  (Z.to_nat (elasticarray_getsize EA reclen) < fuel)%nat ->
  elasticarray_iter fuel EA reclen fp w =
    Some (fold_left (fun s i => fp (ptr_of (buf (fst s)) + i * reclen) s)
            (seqZ 0 (elasticarray_getsize EA reclen)) (EA, w)) /\
  elasticarray_iter fuel EA reclen record_call [] =
    Some (EA,
          (fun i => ptr_of (buf EA) + i * reclen) <$>
            seqZ 0 (elasticarray_getsize EA reclen)).
Proof.
  intros Hk Hl Hs Hf. pose proof (getsize_bounds EA reclen Hl Hs) as [Hn Hm].
  unfold elasticarray_iter. split.
  - rewrite (iter_loop_spec EA)
      by (assumption || reflexivity || lia || (rewrite Z.sub_0_r; lia)).
    now rewrite Z.sub_0_r.
  - rewrite (iter_loop_spec EA)
      by (assumption || reflexivity || lia || (rewrite Z.sub_0_r; lia)
          || apply record_call_keeps_size).
    rewrite Z.sub_0_r. f_equal.
    apply (fold_left_calls EA reclen _ []).
Qed.

(** ** Where the arithmetic of [resize] does not wrap *)

(** As long as doubling the target of a call that does not grow the
    allocation stays within [size_t], the allocation [resize] computes
    lies between the target and four times the target. *)
Lemma resize_nalloc_bounds a t :
  size_ok a -> size_ok t -> (t <= a -> 2 * t <= SIZE_MAX) ->
  size_ok (resize_nalloc a t) /\
  t <= resize_nalloc a t <= 4 * t.
Proof.
  intros Ha Ht Hc.
  destruct (Z.lt_ge_cases a t) as [Hlt|Hge].
  - destruct (Z.le_gt_cases (2 * a) SIZE_MAX) as [H2|H2].
    + rewrite resize_nalloc_grow by assumption.
      unfold size_ok in *. lia.
    + rewrite resize_nalloc_grow_wrapped by assumption.
      unfold size_ok in *. lia.
  - specialize (Hc Hge). unfold resize_nalloc.
    destruct (Z.ltb_spec a t); [lia|].
    assert (Hw : wrap (t * 4) <= 4 * t /\ 0 <= wrap (t * 4)).
    { pose proof (wrap_range (t * 4)) as Hr.
      destruct (Z.le_gt_cases (t * 4) SIZE_MAX).
      - rewrite wrap_small by (unfold size_ok in *; lia).
        unfold size_ok in *. lia.
      - rewrite wrap_once by lia.
        unfold size_ok, SIZE_MAX in *. pose proof modulus_ge_2. lia. }
    destruct (Z.ltb_spec (wrap (t * 4)) a).
    + rewrite wrap_small by (unfold size_ok in *; lia).
      unfold size_ok in *. lia.
    + unfold size_ok in *. lia.
Qed.

(** The five parts of the invariants of a given array. *)
Ltac split_inv :=
  unfold inv, wf; simpl; split; [split|split; [|split]].

(** Under that condition a successful [resize] establishes the
    invariants, and a failed one leaves the array alone. *)
Lemma resize_preserves_inv EA nsize m :
  wf EA -> (is_Some (buf EA) <-> 0 < alloc EA) -> size_ok nsize ->
  (nsize <= alloc EA -> 2 * nsize <= SIZE_MAX) ->
  (fst (fst (resize EA nsize m)) = 0 -> inv (snd (fst (resize EA nsize m)))) /\
  (fst (fst (resize EA nsize m)) <> 0 -> snd (fst (resize EA nsize m)) = EA).
Proof.
  intros [Hs Ha] Hb Ht Hc.
  pose proof (resize_nalloc_bounds (alloc EA) nsize Ha Ht Hc) as [Hn Hbd].
  destruct (resize_cases EA nsize m)
    as [[H0 E]|[(H0 & H1 & E)|[(_ & _ & E)|([H0 H1] & a & r & _ & E)]]];
    rewrite E; simpl; (split; [intros Hrc|intros Hrc; try reflexivity; try lia]).
  - split_inv; try (unfold size_ok in *; lia).
    split; [intros [b Hb']; discriminate|lia].
  - split_inv; try (unfold size_ok in *; lia). exact Hb.
  - lia.
  - split_inv; try (unfold size_ok in *; lia).
    split; [intros _; unfold size_ok in *; lia|intros _; eauto].
Qed.

(** Under that condition an append to an array that satisfies the
    invariants is defined: the copy goes to a storage that is present and
    ends within the allocation. *)
Lemma elasticarray_append_outcome EA src nrec reclen m :
  inv EA -> 0 < reclen -> 0 <= nrec ->
  size EA + nrec * reclen <= SIZE_MAX ->
  (size EA + nrec * reclen <= alloc EA ->
   2 * (size EA + nrec * reclen) <= SIZE_MAX) ->
  elasticarray_append EA src nrec reclen m =
    let r := resize EA (size EA + nrec * reclen) m in
    let EA' := snd (fst r) in
    if fst (fst r) =? 0 then
      (Some (0,
             if 0 <? nrec then
               EArr (size EA') (alloc EA')
                 (Some (Block (ptr_of (buf EA'))
                          (memcpy (block_data (buf EA')) (size EA) src
                             (nrec * reclen))))
             else EA'),
       snd r)
    else (Some (-1, EA'), snd r).
Proof.
  intros (Hwf & Hle & Hb & H4) Hl Hn Ho Hc.
  pose proof Hwf as [Hs Ha].
  rewrite elasticarray_append_fits by assumption. cbv zeta.
  assert (Ht : size_ok (size EA + nrec * reclen))
    by (unfold size_ok in *; nia).
  pose proof (resize_preserves_inv EA (size EA + nrec * reclen) m
                Hwf Hb Ht Hc) as [Hok _].
  pose proof (resize_success EA (size EA + nrec * reclen) m) as Hsucc.
  destruct (resize EA (size EA + nrec * reclen) m) as [[rc EA'] m'].
  simpl in *.
  destruct (Z.eqb_spec rc 0); simpl; [|reflexivity].
  destruct (Z.ltb_spec 0 nrec) as [Hp|Hp]; [|reflexivity].
  destruct (Hok ltac:(assumption)) as (_ & Hle' & Hb' & _).
  destruct (Hsucc ltac:(assumption)) as [_ Hsz].
  assert (Hpos : 0 < alloc EA') by (unfold size_ok in *; nia).
  apply Hb' in Hpos as [b Hbuf]. rewrite Hbuf. simpl.
  destruct (Z.leb_spec (size EA + nrec * reclen) (alloc EA')); [|lia].
  reflexivity.
Qed.

(** X1.  The public operations, under the same condition on the target of
    the call of [resize] they make (doubling it fits in [size_t] whenever
    it is within the allocation): when they report success the array
    satisfies the invariants, and when they report failure it is the
    array they were given; an append is defined and returns one or the
    other.  elasticarray_shrink keeps the logical size within the
    allocation in every case. *)
Lemma operations_preserve_inv EA src nrec reclen m :
  inv EA -> 0 < reclen -> 0 <= nrec ->
  (nrec * reclen <= SIZE_MAX ->
   (nrec * reclen <= alloc EA -> 2 * (nrec * reclen) <= SIZE_MAX) ->
   (fst (fst (elasticarray_resize EA nrec reclen m)) = 0 ->
    inv (snd (fst (elasticarray_resize EA nrec reclen m)))) /\
   (fst (fst (elasticarray_resize EA nrec reclen m)) <> 0 ->
    snd (fst (elasticarray_resize EA nrec reclen m)) = EA)) /\
  (size EA + nrec * reclen <= SIZE_MAX ->
   (size EA + nrec * reclen <= alloc EA ->
    2 * (size EA + nrec * reclen) <= SIZE_MAX) ->
   exists rc EA',
     fst (elasticarray_append EA src nrec reclen m) = Some (rc, EA') /\
     (rc = 0 -> inv EA') /\
     (rc <> 0 -> EA' = EA)) /\
  (2 * shrink_nsize EA nrec reclen <= SIZE_MAX ->
   wf (fst (elasticarray_shrink EA nrec reclen m)) /\
   size (fst (elasticarray_shrink EA nrec reclen m))
     <= alloc (fst (elasticarray_shrink EA nrec reclen m))) /\
  ((fst (fst (elasticarray_truncate EA m)) = 0 ->
    inv (snd (fst (elasticarray_truncate EA m)))) /\
   (fst (fst (elasticarray_truncate EA m)) <> 0 ->
    snd (fst (elasticarray_truncate EA m)) = EA)).
Proof.
  intros Hinv Hl Hn.
  pose proof Hinv as (Hwf & Hle & Hb & H4).
  pose proof Hwf as [Hs Ha].
  split; [|split; [|split]].
  - intros Ho Hc.
    rewrite elasticarray_resize_fits by assumption. cbv zeta.
    assert (Ht : size_ok (nrec * reclen)) by (unfold size_ok; nia).
    pose proof (resize_preserves_inv EA (nrec * reclen) m Hwf Hb Ht Hc)
      as [Hok Hko].
    destruct (resize EA (nrec * reclen) m) as [[rc EA'] m']. simpl in *.
    destruct (Z.eqb_spec rc 0); simpl; split; intros; auto; lia.
  - intros Ho Hc.
    rewrite (elasticarray_append_outcome EA src nrec reclen m)
      by assumption.
    cbv zeta.
    assert (Ht : size_ok (size EA + nrec * reclen))
      by (unfold size_ok in *; nia).
    pose proof (resize_preserves_inv EA (size EA + nrec * reclen) m
                  Hwf Hb Ht Hc) as [Hok Hko].
    pose proof (resize_success EA (size EA + nrec * reclen) m) as Hsucc.
    destruct (resize EA (size EA + nrec * reclen) m) as [[rc EA'] m'].
    simpl in *.
    destruct (Z.eqb_spec rc 0); simpl.
    + eexists _, _. split; [reflexivity|].
      split; [intros _|intros; lia].
      specialize (Hok ltac:(assumption)).
      destruct (Hsucc ltac:(assumption)) as [_ Hsz].
      destruct (Z.ltb_spec 0 nrec); [|assumption].
      destruct Hok as ([Hs' Ha'] & Hle' & Hb' & H4').
      split_inv; try assumption.
      split; [intros _; unfold size_ok in *; nia|intros _; eauto].
    + eexists _, _. split; [reflexivity|].
      split; [intros; lia|intros _; now apply Hko].
  - intros Hc.
    pose proof (shrink_nsize_le EA nrec reclen Hs) as Hns.
    assert (Ht : size_ok (shrink_nsize EA nrec reclen))
      by (unfold size_ok in *; lia).
    pose proof (resize_preserves_inv EA (shrink_nsize EA nrec reclen) m
                  Hwf Hb Ht ltac:(intros; assumption)) as [Hok Hko].
    unfold elasticarray_shrink, bind.
    destruct (resize EA (shrink_nsize EA nrec reclen) m) as [[rc EA'] m'].
    simpl in *.
    destruct (Z.eqb_spec rc 0); simpl.
    + destruct (Hok ltac:(assumption)) as (Hwf' & Hle' & _). auto.
    + rewrite (Hko ltac:(assumption)).
      unfold wf; simpl. repeat split; unfold size_ok in *; lia.
  - destruct (elasticarray_truncate_cases EA m)
      as [[H0 E]|[(H0 & H1 & E)|[(Hn' & Hr & E)|([H0 H1] & a & r & _ & E)]]];
      rewrite E; simpl; (split; [intros Hrc|intros Hrc; try reflexivity; try lia]).
    + split_inv; try (unfold size_ok in *; lia).
      split; [intros [b Hb']; discriminate|lia].
    + unfold inv, wf. auto.
    + lia.
    + split_inv; try (unfold size_ok in *; lia).
      split; [intros _; unfold size_ok in *; lia|intros _; eauto].
Qed.

(** ** Appending *)

Lemma store_bytes_lookup_before (d : gmap Z byte) off src k :
  k < off -> store_bytes d off src !! k = d !! k.
Proof.
  revert d off. induction src as [|b src IH]; intros d off Hk; simpl.
  - reflexivity.
  - rewrite IH by lia. apply lookup_insert_ne. lia.
Qed.

Lemma store_bytes_lookup_in (d : gmap Z byte) off src (i : nat) b :
  src !! i = Some b ->
  store_bytes d off src !! (off + Z.of_nat i) = Some b.
Proof.
  revert d off i. induction src as [|c src IH]; intros d off i Hi; simpl.
  - discriminate.
  - destruct i as [|i]; simpl in Hi.
    + inversion Hi; subst c.
      rewrite store_bytes_lookup_before by lia.
      replace (off + Z.of_nat 0) with off by lia.
      apply lookup_insert_eq.
    + replace (off + Z.of_nat (S i)) with (off + 1 + Z.of_nat i) by lia.
      now apply IH.
Qed.

Lemma memcpy_all (d : gmap Z byte) off src n :
  Z.of_nat (length src) = n -> memcpy d off src n = store_bytes d off src.
Proof.
  intros Hn. unfold memcpy. rewrite take_ge by lia. reflexivity.
Qed.

(** A successful append adds [nrec * reclen] to the logical size, and the
    sum fits in [size_t]. *)
Lemma append_success_size EA src nrec reclen m EA' :
  0 < reclen -> 0 <= nrec -> size_ok (size EA) ->
  fst (elasticarray_append EA src nrec reclen m) = Some (0, EA') ->
  size EA' = size EA + nrec * reclen /\
  size EA + nrec * reclen <= SIZE_MAX.
Proof.
  intros Hl Hn Hs.
  destruct (Z.le_gt_cases (size EA + nrec * reclen) SIZE_MAX) as [Ho|Ho].
  - rewrite elasticarray_append_fits by assumption. cbv zeta.
    pose proof (resize_success EA (size EA + nrec * reclen) m) as Hr.
    destruct (resize EA (size EA + nrec * reclen) m) as [[rc EA1] m'].
    simpl in *. destruct (Z.eqb_spec rc 0); simpl; [|discriminate].
    destruct (Hr ltac:(assumption)) as [_ Hsz].
    destruct (0 <? nrec); simpl.
    + destruct (buf EA1); [|discriminate].
      destruct (size EA + nrec * reclen <=? alloc EA1); [|discriminate].
      intros E. inversion E. simpl. auto.
    + intros E. inversion E; subst. auto.
  - rewrite elasticarray_append_overflow by assumption. simpl. discriminate.
Qed.

Lemma append_seq_size EA batches reclen m EA' m' :
  0 < reclen -> size_ok (size EA) ->
  Forall (fun b => 0 <= b.2) batches ->
  append_seq EA batches reclen m = Some (EA', m') ->
  size EA' = size EA + foldr Z.add 0 (snd <$> batches) * reclen.
Proof.
  intros Hl. revert EA m.
  induction batches as [|[src nrec] rest IH]; intros EA m Hs Hall Hrun;
    simpl in *.
  - inversion Hrun; subst. lia.
  - inversion Hall as [|? ? Hn Hrest]; subst. simpl in Hn.
    destruct (fst (elasticarray_append EA src nrec reclen m))
      as [[rc EA1]|] eqn:Ea; [|discriminate].
    destruct (Z.eqb_spec rc 0) as [Hrc|Hrc]; [subst rc|discriminate].
    destruct (append_success_size EA src nrec reclen m EA1 Hl Hn Hs Ea)
      as [Hsz Hfit].
    assert (Hs' : size_ok (size EA1))
      by (rewrite Hsz; unfold size_ok in *; nia).
    rewrite (IH _ _ Hs' Hrest Hrun).
    rewrite Hsz.
    change (list_fmap (list byte * Z)%type Z snd rest) with (snd <$> rest).
    ring.
Qed.

(** X2.  After a sequence of successful appends of the same record length
    on an empty array, the number of records is the sum of the numbers
    appended. *)
Lemma append_seq_count EA batches reclen m EA' m' :
  0 < reclen -> size EA = 0 ->
  Forall (fun b => 0 <= b.2) batches ->
  append_seq EA batches reclen m = Some (EA', m') ->
  elasticarray_getsize EA' reclen = foldr Z.add 0 (snd <$> batches).
Proof.
  intros Hl H0 Hall Hrun. unfold elasticarray_getsize.
  assert (Hs : size_ok (size EA))
    by (rewrite H0; pose proof SIZE_MAX_pos; unfold size_ok; lia).
  rewrite (append_seq_size EA batches reclen m EA' m' Hl Hs Hall Hrun).
  rewrite H0. simpl. apply Z.div_mul. lia.
Qed.

(** Where the arithmetic of [resize] does not wrap, a successful append
    keeps the bytes below the old logical size and stores the bytes of
    [src] from the old logical size on. *)
Lemma append_content EA src nrec reclen m EA' :
  inv EA -> 0 < reclen -> 0 <= nrec ->
  size EA + nrec * reclen <= SIZE_MAX ->
  (size EA + nrec * reclen <= alloc EA ->
   2 * (size EA + nrec * reclen) <= SIZE_MAX) ->
  Z.of_nat (length src) = nrec * reclen ->
  fst (elasticarray_append EA src nrec reclen m) = Some (0, EA') ->
  size EA' = size EA + nrec * reclen /\
  (forall k, 0 <= k < size EA ->
     block_data (buf EA') !! k = block_data (buf EA) !! k) /\
  (forall (i : nat) b, src !! i = Some b ->
     block_data (buf EA') !! (size EA + Z.of_nat i) = Some b).
Proof.
  intros Hinv Hl Hn Ho Hc Hsrc.
  pose proof Hinv as (Hwf & Hle & Hb & H4).
  pose proof Hwf as [Hs Ha].
  assert (Ht : size_ok (size EA + nrec * reclen))
    by (unfold size_ok in *; nia).
  pose proof (resize_nalloc_bounds (alloc EA) (size EA + nrec * reclen)
                Ha Ht Hc) as [Hna Hbd].
  assert (Hempty : nrec <= 0 -> src = []).
  { intros Hz. apply nil_length_inv. nia. }
  assert (Hpos : 0 < nrec -> 0 < nrec * reclen) by nia.
  assert (Hnl : 0 <= nrec * reclen) by nia.
  rewrite (elasticarray_append_outcome EA src nrec reclen m) by assumption.
  cbv zeta.
  unfold size_ok in Hs, Ha, Hna.
  destruct (resize_cases EA (size EA + nrec * reclen) m)
    as [[H0 E]|[(H0 & H1 & E)|[(_ & _ & E)|([H0 H1] & a & r & _ & E)]]];
    rewrite E; simpl; intros Hrc; inversion Hrc; subst EA'; clear Hrc.
  - destruct (Z.ltb_spec 0 nrec) as [Hp|Hp]; [specialize (Hpos Hp); lia|].
    simpl. rewrite (Hempty Hp).
    split; [reflexivity|]. split; [intros k Hk; lia|].
    intros i b Hi. discriminate.
  - destruct (Z.ltb_spec 0 nrec) as [Hp|Hp]; simpl.
    + split; [reflexivity|].
      rewrite memcpy_all by assumption. split.
      * intros k Hk. apply store_bytes_lookup_before. lia.
      * intros i b Hi. now apply store_bytes_lookup_in.
    + rewrite (Hempty Hp).
      split; [reflexivity|]. split; [reflexivity|].
      intros i b Hi. discriminate.
  - destruct (Z.ltb_spec 0 nrec) as [Hp|Hp]; simpl.
    + split; [reflexivity|].
      rewrite memcpy_all by assumption. split.
      * intros k Hk. rewrite store_bytes_lookup_before by lia.
        apply prefix_bytes_lookup. unfold size_ok in *. nia.
      * intros i b Hi. now apply store_bytes_lookup_in.
    + rewrite (Hempty Hp).
      split; [reflexivity|].
      split; [intros k Hk; apply prefix_bytes_lookup;
              unfold size_ok in *; nia|].
      intros i b Hi. discriminate.
Qed.


(** ** Where it wraps *)

(** On every platform, resizing an array of [(SIZE_MAX + 1) / 2] bytes to
    the size it has releases its storage and reports success. *)
Lemma resize_releases_live_storage EA m :
  alloc EA = modulus / 2 ->
  resize EA (modulus / 2) m =
    (0, EArr (modulus / 2) 0 None, logged m (EvFree (block_addr (buf EA)))).
Proof.
  intros Ha. apply resize_free. rewrite Ha.
  assert (Hm : modulus = 2 * (modulus / 2)).
  { unfold modulus.
    replace (Z.pos size_bits) with (Z.succ (Z.pos size_bits - 1)) by lia.
    rewrite Z.pow_succ_r by lia.
    rewrite Z.mul_comm, Z.div_mul by lia. lia. }
  pose proof modulus_ge_2 as H2.
  unfold resize_nalloc. rewrite Z.ltb_irrefl.
  assert (H4 : wrap (modulus / 2 * 4) = 0).
  { unfold wrap. replace (modulus / 2 * 4) with (2 * modulus) by lia.
    apply Z.mod_mul. lia. }
  assert (H2' : wrap (modulus / 2 * 2) = 0).
  { unfold wrap. replace (modulus / 2 * 2) with (1 * modulus) by lia.
    apply Z.mod_mul. lia. }
  rewrite H4, H2'.
  destruct (Z.ltb_spec 0 (modulus / 2)); lia.
Qed.

(** ** No block is lost and none is freed twice *)

Lemma live_blocks_app l l' :
  live_blocks (l ++ l') = live_blocks l + live_blocks l'.
Proof.
  induction l as [|e l IH]; simpl; [reflexivity|]. rewrite IH. lia.
Qed.

Lemma live_structs_app l l' :
  live_structs (l ++ l') = live_structs l + live_structs l'.
Proof.
  induction l as [|e l IH]; simpl; [reflexivity|]. rewrite IH. lia.
Qed.

Lemma present_block_addr p : present (block_addr p) = present p.
Proof. destruct p; reflexivity. Qed.

Lemma accounted_refl EA m : accounted EA m EA m.
Proof. unfold accounted. split; lia. Qed.

(** Goals on the balance of a log that was extended by given events. *)
Ltac account :=
  unfold accounted, logged, answered; simpl;
  rewrite ?live_blocks_app, ?live_structs_app; simpl;
  rewrite ?present_block_addr; split; lia.

Lemma resize_accounted EA nsize m :
  accounted EA m (snd (fst (resize EA nsize m))) (snd (resize EA nsize m)).
Proof.
  destruct (resize_cases EA nsize m)
    as [[_ E]|[(_ & _ & E)|[(_ & _ & E)|(_ & a & r & _ & E)]]];
    rewrite E; account.
Qed.

Lemma elasticarray_truncate_accounted EA m :
  accounted EA m (snd (fst (elasticarray_truncate EA m)))
    (snd (elasticarray_truncate EA m)).
Proof.
  destruct (elasticarray_truncate_cases EA m)
    as [[_ E]|[(_ & _ & E)|[(_ & _ & E)|(_ & a & r & _ & E)]]];
    rewrite E; account.
Qed.

Lemma elasticarray_resize_accounted EA nrec reclen m :
  accounted EA m (snd (fst (elasticarray_resize EA nrec reclen m)))
    (snd (elasticarray_resize EA nrec reclen m)).
Proof.
  unfold elasticarray_resize.
  destruct (SIZE_MAX / reclen <? nrec); [account|].
  unfold bind.
  pose proof (resize_accounted EA (wrap (nrec * reclen)) m) as H.
  destruct (resize EA (wrap (nrec * reclen)) m) as [[rc EA'] m'].
  simpl in *. destruct (rc =? 0); exact H.
Qed.

Lemma elasticarray_append_accounted EA src nrec reclen m rc EA' :
  fst (elasticarray_append EA src nrec reclen m) = Some (rc, EA') ->
  accounted EA m EA' (snd (elasticarray_append EA src nrec reclen m)).
Proof.
  unfold elasticarray_append.
  destruct ((SIZE_MAX / reclen <? nrec)
            || (wrap (SIZE_MAX - size EA) <? wrap (nrec * reclen))).
  { simpl. intros E. inversion E; subst. account. }
  unfold bind.
  pose proof (resize_accounted EA
                (wrap (size EA + wrap (nrec * reclen))) m) as H.
  destruct (resize EA (wrap (size EA + wrap (nrec * reclen))) m)
    as [[rc1 EA1] m'].
  simpl in *.
  destruct (rc1 =? 0); [|intros E; inversion E; subst; exact H].
  destruct (0 <? nrec); [|intros E; inversion E; subst; exact H].
  destruct (buf EA1) as [b|] eqn:Eb; [|discriminate].
  destruct (size EA + wrap (nrec * reclen) <=? alloc EA1); [|discriminate].
  simpl. intros E. inversion E; subst.
  unfold accounted in *. simpl. rewrite Eb in H. exact H.
Qed.

Lemma elasticarray_shrink_accounted EA nrec reclen m :
  accounted EA m (fst (elasticarray_shrink EA nrec reclen m))
    (snd (elasticarray_shrink EA nrec reclen m)).
Proof.
  unfold elasticarray_shrink, bind.
  pose proof (resize_accounted EA (shrink_nsize EA nrec reclen) m) as H.
  destruct (resize EA (shrink_nsize EA nrec reclen) m) as [[rc EA'] m'].
  simpl in *. destruct (rc =? 0); exact H.
Qed.

(** ** Every call to the allocator is a call on the storage *)

(** Goals on the calls a given outcome has added to the log. *)
Ltac on_storage_calls :=
  unfold storage_calls, logged, answered; simpl;
  eexists; split; [reflexivity || (symmetry; apply app_nil_r)|];
  simpl; repeat split.

Lemma resize_storage_calls EA nsize m :
  storage_calls EA m (snd (fst (resize EA nsize m))) (snd (resize EA nsize m)).
Proof.
  destruct (resize_cases EA nsize m)
    as [[_ E]|[(_ & _ & E)|[(_ & _ & E)|(_ & a & r & _ & E)]]];
    rewrite E; on_storage_calls.
Qed.

Lemma elasticarray_truncate_storage_calls EA m :
  storage_calls EA m (snd (fst (elasticarray_truncate EA m)))
    (snd (elasticarray_truncate EA m)).
Proof.
  destruct (elasticarray_truncate_cases EA m)
    as [[_ E]|[(_ & _ & E)|[(_ & _ & E)|(_ & a & r & _ & E)]]];
    rewrite E; on_storage_calls.
Qed.

Lemma elasticarray_resize_storage_calls EA nrec reclen m :
  storage_calls EA m (snd (fst (elasticarray_resize EA nrec reclen m)))
    (snd (elasticarray_resize EA nrec reclen m)).
Proof.
  unfold elasticarray_resize.
  destruct (SIZE_MAX / reclen <? nrec); [on_storage_calls|].
  unfold bind.
  pose proof (resize_storage_calls EA (wrap (nrec * reclen)) m) as H.
  destruct (resize EA (wrap (nrec * reclen)) m) as [[rc EA'] m'].
  simpl in *. destruct (rc =? 0); exact H.
Qed.

Lemma elasticarray_append_storage_calls EA src nrec reclen m rc EA' :
  fst (elasticarray_append EA src nrec reclen m) = Some (rc, EA') ->
  storage_calls EA m EA' (snd (elasticarray_append EA src nrec reclen m)).
Proof.
  unfold elasticarray_append.
  destruct ((SIZE_MAX / reclen <? nrec)
            || (wrap (SIZE_MAX - size EA) <? wrap (nrec * reclen))).
  { simpl. intros E. inversion E; subst. on_storage_calls. }
  unfold bind.
  pose proof (resize_storage_calls EA
                (wrap (size EA + wrap (nrec * reclen))) m) as H.
  destruct (resize EA (wrap (size EA + wrap (nrec * reclen))) m)
    as [[rc1 EA1] m'].
  simpl in *.
  destruct (rc1 =? 0); [|intros E; inversion E; subst; exact H].
  destruct (0 <? nrec); [|intros E; inversion E; subst; exact H].
  destruct (buf EA1) as [b|] eqn:Eb; [|discriminate].
  destruct (size EA + wrap (nrec * reclen) <=? alloc EA1); [|discriminate].
  simpl. intros E. inversion E; subst.
  unfold storage_calls in *. simpl. rewrite Eb in H. exact H.
Qed.

Lemma elasticarray_shrink_storage_calls EA nrec reclen m :
  storage_calls EA m (fst (elasticarray_shrink EA nrec reclen m))
    (snd (elasticarray_shrink EA nrec reclen m)).
Proof.
  unfold elasticarray_shrink, bind.
  pose proof (resize_storage_calls EA (shrink_nsize EA nrec reclen) m) as H.
  destruct (resize EA (shrink_nsize EA nrec reclen) m) as [[rc EA'] m'].
  simpl in *. destruct (rc =? 0); exact H.
Qed.

(** X3.  Whatever the sizes and whatever the allocator answers, resize,
    elasticarray_resize, elasticarray_append (in every outcome where its
    copy is defined), elasticarray_shrink and elasticarray_truncate make
    at most one call to the allocator, and it is a call on the storage of
    the array: the pointer handed to free or to realloc is the storage the
    array had; after free the array has no storage, after a successful
    realloc its storage is the block obtained, and after a refused realloc
    or no call its storage is where it was.  So the number of live blocks
    changes as the presence of the storage does, and no structure is
    allocated or freed. *)
Theorem mutators_accounted EA src nrec reclen nsize m :
  (storage_calls EA m (snd (fst (resize EA nsize m)))
     (snd (resize EA nsize m)) /\
   accounted EA m (snd (fst (resize EA nsize m)))
     (snd (resize EA nsize m))) /\
  (storage_calls EA m (snd (fst (elasticarray_resize EA nrec reclen m)))
     (snd (elasticarray_resize EA nrec reclen m)) /\
   accounted EA m (snd (fst (elasticarray_resize EA nrec reclen m)))
     (snd (elasticarray_resize EA nrec reclen m))) /\
  (forall rc EA',
     fst (elasticarray_append EA src nrec reclen m) = Some (rc, EA') ->
     storage_calls EA m EA' (snd (elasticarray_append EA src nrec reclen m)) /\
     accounted EA m EA' (snd (elasticarray_append EA src nrec reclen m))) /\
  (storage_calls EA m (fst (elasticarray_shrink EA nrec reclen m))
     (snd (elasticarray_shrink EA nrec reclen m)) /\
   accounted EA m (fst (elasticarray_shrink EA nrec reclen m))
     (snd (elasticarray_shrink EA nrec reclen m))) /\
  (storage_calls EA m (snd (fst (elasticarray_truncate EA m)))
     (snd (elasticarray_truncate EA m)) /\
   accounted EA m (snd (fst (elasticarray_truncate EA m)))
     (snd (elasticarray_truncate EA m))).
Proof.
  split; [split; [apply resize_storage_calls|apply resize_accounted]|].
  split; [split; [apply elasticarray_resize_storage_calls
                 |apply elasticarray_resize_accounted]|].
  split.
  { intros rc EA' E.
    split; [exact (elasticarray_append_storage_calls _ _ _ _ _ _ _ E)
           |exact (elasticarray_append_accounted _ _ _ _ _ _ _ E)]. }
  split; [split; [apply elasticarray_shrink_storage_calls
                 |apply elasticarray_shrink_accounted]|].
  split; [apply elasticarray_truncate_storage_calls
         |apply elasticarray_truncate_accounted].
Qed.

(** What an export has handed out, as a pointer. *)
Lemma elasticarray_export_cases EA reclen m :
  (fst (fst (elasticarray_truncate EA m)) = 0 /\
   elasticarray_export EA reclen m =
     (0,
      Some (Exported (buf (snd (fst (elasticarray_truncate EA m))))
              (elasticarray_getsize EA reclen)),
      None,
      logged (snd (elasticarray_truncate EA m)) EvFreeEA)) \/
  (fst (fst (elasticarray_truncate EA m)) <> 0 /\
   elasticarray_truncate EA m =
     (-1, EA, answered m (EvRealloc (block_addr (buf EA)) (size EA) None)) /\
   elasticarray_export EA reclen m =
     (-1, None, Some EA,
      answered m (EvRealloc (block_addr (buf EA)) (size EA) None))).
Proof.
  unfold elasticarray_export, bind, elasticarray_getsize.
  pose proof (elasticarray_truncate_size EA m) as Hsz.
  destruct (elasticarray_truncate_cases EA m)
    as [[_ E]|[(_ & _ & E)|[(_ & _ & E)|(_ & a & r & _ & E)]]];
    rewrite E in Hsz |- *; simpl in Hsz |- *.
  - left. split; reflexivity.
  - left. split; reflexivity.
  - right. split; [lia|]. split; reflexivity.
  - left. split; reflexivity.
Qed.

(** X4.  Over the life of an array the allocator calls balance.  When
    elasticarray_init returns an array, one structure and the storage of
    that array have been obtained, and nothing else; when it returns NULL,
    whatever it had obtained has been freed.  elasticarray_free releases
    the structure and the storage, and does nothing for NULL; so after
    elasticarray_init and elasticarray_free nothing is left.  A successful
    elasticarray_export releases the structure and leaves exactly the
    buffer it hands out; a failed one changes nothing.
    elasticarray_exportdup obtains the copy it hands out and nothing
    else. *)
Theorem lifecycle_accounted EA nrec reclen m :
  (forall EA0 m1,
     elasticarray_init nrec reclen m = (Some EA0, m1) ->
     live_structs (log m1) = live_structs (log m) + 1 /\
     live_blocks (log m1) = live_blocks (log m) + present (buf EA0) /\
     live_structs (log (snd (elasticarray_free (Some EA0) m1)))
       = live_structs (log m) /\
     live_blocks (log (snd (elasticarray_free (Some EA0) m1)))
       = live_blocks (log m)) /\
  (forall m1,
     elasticarray_init nrec reclen m = (None, m1) ->
     live_structs (log m1) = live_structs (log m) /\
     live_blocks (log m1) = live_blocks (log m)) /\
  (live_structs (log (snd (elasticarray_free (Some EA) m)))
     = live_structs (log m) - 1 /\
   live_blocks (log (snd (elasticarray_free (Some EA) m)))
     = live_blocks (log m) - present (buf EA)) /\
  elasticarray_free None m = (tt, m) /\
  (forall out m1,
     elasticarray_export EA reclen m = (0, Some out, None, m1) ->
     live_structs (log m1) = live_structs (log m) - 1 /\
     live_blocks (log m1)
       = live_blocks (log m) + present (out_buf out) - present (buf EA)) /\
  (fst (fst (fst (elasticarray_export EA reclen m))) <> 0 ->
   live_structs (log (snd (elasticarray_export EA reclen m)))
     = live_structs (log m) /\
   live_blocks (log (snd (elasticarray_export EA reclen m)))
     = live_blocks (log m)) /\
  (live_structs (log (snd (elasticarray_exportdup EA reclen m)))
     = live_structs (log m) /\
   live_blocks (log (snd (elasticarray_exportdup EA reclen m)))
     = live_blocks (log m)
       + present (snd (fst (fst (elasticarray_exportdup EA reclen m))))).
Proof.
  assert (Hfree : forall EA1 m1,
    live_structs (log (snd (elasticarray_free (Some EA1) m1)))
      = live_structs (log m1) - 1 /\
    live_blocks (log (snd (elasticarray_free (Some EA1) m1)))
      = live_blocks (log m1) - present (buf EA1)).
  { intros EA1 m1. unfold elasticarray_free, c_free, free_struct, bind, emit.
    simpl. rewrite !live_blocks_app, !live_structs_app. simpl.
    rewrite present_block_addr. split; lia. }
  assert (Hinit :
    match elasticarray_init nrec reclen m with
    | (Some EA0, m1) =>
        live_structs (log m1) = live_structs (log m) + 1 /\
        live_blocks (log m1) = live_blocks (log m) + present (buf EA0)
    | (None, m1) =>
        live_structs (log m1) = live_structs (log m) /\
        live_blocks (log m1) = live_blocks (log m)
    end).
  { unfold elasticarray_init, malloc_struct, bind, next_answer.
    destruct m as [ans lg er]. simpl.
    destruct ans as [|[a|] rest]; simpl;
      try (rewrite live_blocks_app, live_structs_app; simpl; split; lia).
    pose proof (elasticarray_resize_accounted (EArr 0 0 None) nrec reclen
                  (Mem rest (lg ++ [EvMallocEA true]) er)) as [Hb Hs].
    destruct (elasticarray_resize (EArr 0 0 None) nrec reclen
                (Mem rest (lg ++ [EvMallocEA true]) er))
      as [[rc EA'] m'].
    simpl in *. rewrite live_blocks_app, live_structs_app in *. simpl in *.
    destruct (rc =? 0); simpl.
    - split; lia.
    - destruct (Hfree EA' m') as [Hfs Hfb].
      unfold elasticarray_free, bind in Hfs, Hfb.
      destruct (c_free (buf EA') m') as [u m2]. simpl in *.
      split; lia. }
  split; [|split; [|split; [|split; [|split; [|split]]]]].
  - intros EA0 m1 Hi. rewrite Hi in Hinit. destruct Hinit as [Hs Hb].
    destruct (Hfree EA0 m1) as [Hfs Hfb].
    split; [exact Hs|]. split; [exact Hb|]. split; lia.
  - intros m1 Hi. rewrite Hi in Hinit. exact Hinit.
  - apply Hfree.
  - reflexivity.
  - intros out m1 He.
    pose proof (elasticarray_truncate_accounted EA m) as [Hb Hs].
    destruct (elasticarray_export_cases EA reclen m)
      as [[_ E]|(_ & _ & E)]; rewrite E in He; inversion He; subst.
    unfold logged. simpl. rewrite live_blocks_app, live_structs_app. simpl.
    split; lia.
  - intros Hrc.
    destruct (elasticarray_export_cases EA reclen m)
      as [[_ E]|(_ & _ & E)]; rewrite E in Hrc |- *; simpl in Hrc |- *;
      [lia|].
    rewrite live_blocks_app, live_structs_app. simpl. split; lia.
  - unfold elasticarray_exportdup, c_malloc, bind, next_answer, emit, ret.
    destruct m as [ans lg er]. simpl.
    destruct ans as [|[a|] rest]; simpl;
      rewrite ?live_blocks_app, ?live_structs_app; simpl; split; lia.
Qed.

(** ** Creation *)

(** X5.  For a record count and a positive record length whose product
    fits in [size_t]: an array that elasticarray_init returns has a logical
    size and an allocation of exactly [nrec * reclen] bytes, holds [nrec]
    records, satisfies the invariants and has no initialised byte;
    elasticarray_init returns an array whenever the allocator grants its
    next two requests; and for no record it asks for the structure only. *)
Theorem init_result nrec reclen m :
  0 < reclen -> 0 <= nrec -> nrec * reclen <= SIZE_MAX ->
  (forall EA m1,
     elasticarray_init nrec reclen m = (Some EA, m1) ->
     size EA = nrec * reclen /\ alloc EA = nrec * reclen /\
     elasticarray_getsize EA reclen = nrec /\
     inv EA /\ block_data (buf EA) = ∅) /\
  (forall a b rest,
     answers m = Some a :: Some b :: rest ->
     is_Some (fst (elasticarray_init nrec reclen m))) /\
  (forall a rest,
     nrec = 0 -> answers m = Some a :: rest ->
     elasticarray_init nrec reclen m =
       (Some (EArr 0 0 None),
        Mem rest (log m ++ [EvMallocEA true; EvFree None]) (errno m))).
Proof.
  intros Hl Hn Ho.
  assert (Ht : size_ok (nrec * reclen)) by (unfold size_ok; nia).
  assert (H0 : size_ok 0)
    by (unfold size_ok; pose proof SIZE_MAX_pos; lia).
  assert (Hna : resize_nalloc 0 (nrec * reclen) = nrec * reclen).
  { destruct (Z.eq_dec (nrec * reclen) 0) as [Hz|Hz].
    - rewrite Hz. apply resize_nalloc_zero. lia.
    - rewrite resize_nalloc_grow; unfold size_ok in *; lia. }
  assert (Hcases :
    forall m0,
      (nrec * reclen = 0 /\
       elasticarray_resize (EArr 0 0 None) nrec reclen m0 =
         (0, EArr 0 0 None, logged m0 (EvFree None))) \/
      (nrec * reclen <> 0 /\
       elasticarray_resize (EArr 0 0 None) nrec reclen m0 =
         (-1, EArr 0 0 None,
          answered m0 (EvRealloc None (nrec * reclen) None))) \/
      (nrec * reclen <> 0 /\ exists b rest,
       answers m0 = Some b :: rest /\
       elasticarray_resize (EArr 0 0 None) nrec reclen m0 =
         (0,
          EArr (nrec * reclen) (nrec * reclen)
            (Some (Block b (prefix_bytes ∅ (nrec * reclen)))),
          answered m0 (EvRealloc None (nrec * reclen) (Some b))))).
  { intros m0. rewrite elasticarray_resize_fits by assumption. cbv zeta.
    destruct (resize_cases (EArr 0 0 None) (nrec * reclen) m0)
      as [[Hz E]|[(Hz & Hk & E)|[([Hz _] & _ & E)|([Hz _] & b & r & Ha & E)]]];
      simpl in Hz; rewrite Hna in Hz; rewrite E; simpl; rewrite ?Hna.
    - left. split; [assumption|]. rewrite Hz. reflexivity.
    - simpl in Hk. rewrite Hna in Hk. lia.
    - right; left. split; [assumption|reflexivity].
    - right; right. split; [assumption|]. exists b, r.
      split; [assumption|reflexivity]. }
  assert (Hpre : prefix_bytes (∅ : gmap Z byte) (nrec * reclen) = ∅)
    by apply map_filter_empty.
  split; [|split].
  - intros EA m1. unfold elasticarray_init, malloc_struct, bind, next_answer.
    destruct m as [ans lg er]. simpl.
    destruct ans as [|[a|] rest]; simpl; try discriminate.
    destruct (Hcases (Mem rest (lg ++ [EvMallocEA true]) er))
      as [[Hz E]|[[Hz E]|(Hz & b & r & _ & E)]]; rewrite E; simpl;
      intros Hi; inversion Hi; subst; simpl.
    + unfold elasticarray_getsize. simpl. rewrite <- Hz.
      split; [reflexivity|]. split; [reflexivity|].
      split; [rewrite Hz; rewrite Z.div_0_l by lia; nia|].
      split; [|reflexivity].
      rewrite Hz. split_inv; try (unfold size_ok in *; lia).
      split; [intros [x Hx]; discriminate|lia].
    + unfold elasticarray_getsize. simpl.
      split; [reflexivity|]. split; [reflexivity|].
      split; [apply Z.div_mul; lia|].
      split; [|exact Hpre].
      split_inv; try (unfold size_ok in *; lia).
      split; [intros _; unfold size_ok in *; lia|intros _; eauto].
  - intros a b rest Ha.
    unfold elasticarray_init, malloc_struct, bind, next_answer.
    destruct m as [ans lg er]. simpl in *. subst ans. simpl.
    destruct (Hcases (Mem (Some b :: rest) (lg ++ [EvMallocEA true]) er))
      as [[Hz E]|[[Hz E]|(Hz & b' & r & _ & E)]].
    + rewrite E. simpl. eauto.
    + rewrite elasticarray_resize_fits in E by assumption. cbv zeta in E.
      rewrite (resize_granted (EArr 0 0 None) (nrec * reclen)
                 (Mem (Some b :: rest) (lg ++ [EvMallocEA true]) er) b rest)
        in E; [discriminate| |reflexivity].
      split; simpl; rewrite Hna; lia.
    + rewrite E. simpl. eauto.
  - intros a rest Hz Ha. subst nrec.
    unfold elasticarray_init, malloc_struct, bind, next_answer.
    destruct m as [ans lg er]. simpl in *. subst ans. simpl.
    destruct (Hcases (Mem rest (lg ++ [EvMallocEA true]) er))
      as [[_ E]|[[Hz E]|(Hz & b' & r & _ & E)]]; try lia.
    rewrite E. simpl. unfold logged. simpl.
    rewrite <- app_assoc. reflexivity.
Qed.

(** ** Exactly when a resize loses the storage *)

(** X6.  A successful [resize] to a target [T] leaves a logical size
    within the allocation except in one case, and in that case it never
    does: the allocation was at least [T], [2T] does not fit in [size_t],
    and [4T] reduced modulo [SIZE_MAX + 1] is below the allocation. *)
Theorem resize_within_alloc_iff EA nsize m :
  wf EA -> size_ok nsize ->
  fst (fst (resize EA nsize m)) = 0 ->
  (size (snd (fst (resize EA nsize m)))
     <= alloc (snd (fst (resize EA nsize m)))
   <->
   ~ (nsize <= alloc EA /\ SIZE_MAX < 2 * nsize /\
      wrap (nsize * 4) < alloc EA)).
Proof.
  intros [Hs Ha] Ht Hrc.
  destruct (resize_success EA nsize m Hrc) as [Hal Hsz].
  rewrite Hal, Hsz. clear Hal Hsz Hrc.
  destruct (Z.lt_ge_cases (alloc EA) nsize) as [Hlt|Hge].
  - assert (nsize <= resize_nalloc (alloc EA) nsize).
    { destruct (Z.le_gt_cases (2 * alloc EA) SIZE_MAX).
      - rewrite resize_nalloc_grow by assumption. lia.
      - rewrite resize_nalloc_grow_wrapped by assumption. lia. }
    split; [intros _ (Hc & _); lia|intros _; assumption].
  - unfold resize_nalloc.
    destruct (Z.ltb_spec (alloc EA) nsize); [lia|].
    destruct (Z.ltb_spec (wrap (nsize * 4)) (alloc EA)) as [Hw|Hw].
    + destruct (Z.le_gt_cases (2 * nsize) SIZE_MAX) as [H2|H2].
      * rewrite wrap_small by (unfold size_ok in *; lia).
        unfold size_ok in *. split; [intros _ (_ & Hc & _); lia|intros _; lia].
      * rewrite wrap_once by (unfold size_ok in *; lia).
        unfold size_ok, SIZE_MAX in *.
        split; [intros Hle; lia|intros Hn; exfalso; apply Hn; lia].
    + split; [intros _ (_ & _ & Hc); lia|intros _; lia].
Qed.

(** ** Within the capacity *)

(** X7.  When the target [T > 0] of a call satisfies
    [T <= alloc <= 4T] and [4T] fits in [size_t], the call succeeds without
    calling the allocator: the memory state, the allocation and the storage
    are the ones before the call (with the appended bytes stored, for an
    append).  This holds for elasticarray_resize with [T = nrec * reclen],
    for elasticarray_append with [T = size + nrec * reclen] (the storage
    being present when there is something to copy), and for
    elasticarray_shrink with the size it keeps. *)
Theorem no_allocator_call_within_capacity EA src nrec reclen m :
  wf EA -> 0 < reclen -> 0 <= nrec ->
  (0 < nrec * reclen -> nrec * reclen <= alloc EA ->
   alloc EA <= 4 * (nrec * reclen) -> 4 * (nrec * reclen) <= SIZE_MAX ->
   elasticarray_resize EA nrec reclen m =
     (0, EArr (nrec * reclen) (alloc EA) (buf EA), m)) /\
  (0 < size EA + nrec * reclen -> size EA + nrec * reclen <= alloc EA ->
   alloc EA <= 4 * (size EA + nrec * reclen) ->
   4 * (size EA + nrec * reclen) <= SIZE_MAX ->
   (0 < nrec -> is_Some (buf EA)) ->
   exists EA',
     elasticarray_append EA src nrec reclen m = (Some (0, EA'), m) /\
     alloc EA' = alloc EA /\
     size EA' = size EA + nrec * reclen /\
     ptr_of (buf EA') = ptr_of (buf EA)) /\
  (0 < shrink_nsize EA nrec reclen -> size EA <= alloc EA ->
   alloc EA <= 4 * shrink_nsize EA nrec reclen ->
   4 * shrink_nsize EA nrec reclen <= SIZE_MAX ->
   elasticarray_shrink EA nrec reclen m =
     (EArr (shrink_nsize EA nrec reclen) (alloc EA) (buf EA), m)).
Proof.
  intros [Hs Ha] Hl Hn.
  assert (Hkeep : forall T, 0 < T -> T <= alloc EA -> alloc EA <= 4 * T ->
            4 * T <= SIZE_MAX ->
            resize EA T m = (0, EArr T (alloc EA) (buf EA), m)).
  { intros T Hp Hle H4 Hf.
    assert (HT : size_ok T) by (unfold size_ok in *; lia).
    apply resize_keep; rewrite resize_nalloc_stay by assumption; lia. }
  split; [|split].
  - intros Hp Hle H4 Hf.
    rewrite elasticarray_resize_fits by (assumption || lia). cbv zeta.
    rewrite Hkeep by assumption. reflexivity.
  - intros Hp Hle H4 Hf Hb.
    rewrite elasticarray_append_fits by (assumption || lia). cbv zeta.
    rewrite Hkeep by assumption. simpl.
    destruct (Z.ltb_spec 0 nrec) as [Hpos|Hpos].
    + destruct (Hb Hpos) as [b Eb]. rewrite Eb.
      destruct (Z.leb_spec (size EA + nrec * reclen) (alloc EA)); [|lia].
      eexists. split; [reflexivity|]. repeat split.
    + eexists. split; [reflexivity|]. repeat split.
  - intros Hp Hle H4 Hf.
    unfold elasticarray_shrink, bind.
    rewrite Hkeep; [reflexivity|assumption| |assumption|assumption].
    pose proof (shrink_nsize_le EA nrec reclen Hs). lia.
Qed.

(** ** What a resize keeps *)

(** Where the arithmetic of [resize] does not wrap, the bytes below the
    target are the ones that were there, whatever the outcome. *)
Lemma resize_content EA nsize m :
  wf EA -> size_ok nsize ->
  (nsize <= alloc EA -> 2 * nsize <= SIZE_MAX) ->
  forall k, 0 <= k < nsize ->
    block_data (buf (snd (fst (resize EA nsize m)))) !! k
      = block_data (buf EA) !! k.
Proof.
  intros [Hs Ha] Ht Hc k Hk.
  pose proof (resize_nalloc_bounds (alloc EA) nsize Ha Ht Hc) as [Hn Hbd].
  destruct (resize_cases EA nsize m)
    as [[H0 E]|[(H0 & H1 & E)|[(_ & _ & E)|([H0 H1] & a & r & _ & E)]]];
    rewrite E; simpl; try reflexivity.
  - lia.
  - apply prefix_bytes_lookup. lia.
Qed.

(** X13.  After a successful elasticarray_resize to [nrec] records the
    array holds [nrec] records; and where the arithmetic of [resize] does
    not wrap, the bytes below the new logical size are the ones that were
    there (those of the records kept; the bytes of new records are the
    ones the allocator left). *)
Theorem resize_then_getsize EA nrec reclen m :
  wf EA -> 0 < reclen -> 0 <= nrec ->
  fst (fst (elasticarray_resize EA nrec reclen m)) = 0 ->
  elasticarray_getsize (snd (fst (elasticarray_resize EA nrec reclen m)))
    reclen = nrec /\
  ((nrec * reclen <= alloc EA -> 2 * (nrec * reclen) <= SIZE_MAX) ->
   forall k, 0 <= k < nrec * reclen ->
     block_data (buf (snd (fst (elasticarray_resize EA nrec reclen m)))) !! k
       = block_data (buf EA) !! k).
Proof.
  intros Hwf Hl Hn.
  destruct (Z.le_gt_cases (nrec * reclen) SIZE_MAX) as [Ho|Ho].
  - rewrite elasticarray_resize_fits by assumption. cbv zeta.
    assert (Ht : size_ok (nrec * reclen)) by (unfold size_ok; nia).
    pose proof (resize_success EA (nrec * reclen) m) as Hsucc.
    pose proof (resize_content EA (nrec * reclen) m Hwf Ht) as Hcont.
    destruct (resize EA (nrec * reclen) m) as [[rc EA'] m']. simpl in *.
    destruct (Z.eqb_spec rc 0); simpl; [|lia]. intros _.
    destruct (Hsucc ltac:(assumption)) as [_ Hsz].
    split.
    + unfold elasticarray_getsize. rewrite Hsz. apply Z.div_mul. lia.
    + intros Hc k Hk. now apply Hcont.
  - rewrite elasticarray_resize_overflow by assumption. simpl. lia.
Qed.

(** X14.  Where the arithmetic of [resize] does not wrap,
    elasticarray_shrink on an array that satisfies the invariants leaves
    the bytes below the size it keeps as they were and the logical size
    within the allocation; and unless a reallocation it needed was refused,
    the array satisfies the invariants again, the bound of four times the
    logical size included. *)
Theorem shrink_keeps_prefix EA nrec reclen m :
  inv EA -> 2 * shrink_nsize EA nrec reclen <= SIZE_MAX ->
  size (fst (elasticarray_shrink EA nrec reclen m))
    = shrink_nsize EA nrec reclen /\
  (forall k, 0 <= k < shrink_nsize EA nrec reclen ->
     block_data (buf (fst (elasticarray_shrink EA nrec reclen m))) !! k
       = block_data (buf EA) !! k) /\
  size (fst (elasticarray_shrink EA nrec reclen m))
    <= alloc (fst (elasticarray_shrink EA nrec reclen m)) /\
  (~ (needs_realloc EA (shrink_nsize EA nrec reclen) /\ refused m) ->
   inv (fst (elasticarray_shrink EA nrec reclen m))).
Proof.
  intros (Hwf & Hle & Hb & H4) Hc.
  pose proof Hwf as [Hs Ha].
  pose proof (shrink_nsize_le EA nrec reclen Hs) as Hns.
  assert (Ht : size_ok (shrink_nsize EA nrec reclen))
    by (unfold size_ok in *; lia).
  pose proof (resize_preserves_inv EA (shrink_nsize EA nrec reclen) m
                Hwf Hb Ht ltac:(intros; assumption)) as [Hok Hko].
  pose proof (resize_content EA (shrink_nsize EA nrec reclen) m
                Hwf Ht ltac:(intros; assumption)) as Hcont.
  pose proof (resize_failure EA (shrink_nsize EA nrec reclen) m) as Hfail.
  split; [apply elasticarray_shrink_size|].
  unfold elasticarray_shrink, bind.
  destruct (resize EA (shrink_nsize EA nrec reclen) m) as [[rc EA'] m'].
  simpl in *.
  destruct (Z.eqb_spec rc 0); simpl.
  - pose proof (Hok ltac:(assumption)) as Hinv.
    split; [exact Hcont|]. split; [apply Hinv|].
    intros _. exact Hinv.
  - rewrite (Hko ltac:(assumption)) in *.
    split; [exact Hcont|]. split; [lia|].
    intros Hnot. exfalso. apply Hnot.
    destruct (Hfail ltac:(assumption)) as (Hn & Hr & _). split; assumption.
Qed.

(** ** Records *)

(** The address of a record, without the wrap-around, for an index whose
    record ends within [size_t]. *)
Lemma elasticarray_get_offset EA pos reclen :
  0 <= pos -> 0 <= reclen -> pos * reclen <= SIZE_MAX ->
  elasticarray_get EA pos reclen = ptr_of (buf EA) + pos * reclen.
Proof.
  intros Hp Hl Ho. unfold elasticarray_get.
  rewrite wrap_small; [reflexivity|]. unfold size_ok. nia.
Qed.

(** X10.  For a positive record length, the records below the count that
    elasticarray_getsize returns lie one after the other from the start of
    the storage, each wholly within the logical size; the count is the
    number of whole records, and what is left after them is less than a
    record. *)
Theorem records_within_size EA reclen i :
  0 < reclen -> size_ok (size EA) ->
  0 <= i < elasticarray_getsize EA reclen ->
  elasticarray_get EA i reclen = ptr_of (buf EA) + i * reclen /\
  elasticarray_get EA i reclen + reclen <= ptr_of (buf EA) + size EA /\
  elasticarray_get EA (i + 1) reclen = elasticarray_get EA i reclen + reclen /\
  elasticarray_getsize EA reclen * reclen <= size EA
    < (elasticarray_getsize EA reclen + 1) * reclen.
Proof.
  intros Hl Hs Hi. pose proof (getsize_bounds EA reclen Hl Hs) as [Hn Hm].
  assert (Hrem : size EA < (elasticarray_getsize EA reclen + 1) * reclen).
  { unfold elasticarray_getsize.
    pose proof (Z.div_mod (size EA) reclen ltac:(lia)) as Hd.
    pose proof (Z.mod_pos_bound (size EA) reclen Hl) as Hmod. nia. }
  unfold size_ok in Hs.
  rewrite !elasticarray_get_offset by nia.
  repeat split; nia.
Qed.

(** ** Appending and reading back, appending and deleting *)

(** Where the arithmetic of [resize] does not wrap, a successful append
    leaves an array that satisfies the invariants. *)
Lemma elasticarray_append_inv EA src nrec reclen m EA' :
  inv EA -> 0 < reclen -> 0 <= nrec ->
  size EA + nrec * reclen <= SIZE_MAX ->
  (size EA + nrec * reclen <= alloc EA ->
   2 * (size EA + nrec * reclen) <= SIZE_MAX) ->
  fst (elasticarray_append EA src nrec reclen m) = Some (0, EA') ->
  inv EA'.
Proof.
  intros Hinv Hl Hn Ho Hc.
  pose proof Hinv as (Hwf & Hle & Hb & H4).
  pose proof Hwf as [Hs Ha].
  rewrite (elasticarray_append_outcome EA src nrec reclen m) by assumption.
  cbv zeta.
  assert (Ht : size_ok (size EA + nrec * reclen))
    by (unfold size_ok in *; nia).
  pose proof (resize_preserves_inv EA (size EA + nrec * reclen) m
                Hwf Hb Ht Hc) as [Hok _].
  pose proof (resize_success EA (size EA + nrec * reclen) m) as Hsucc.
  destruct (resize EA (size EA + nrec * reclen) m) as [[rc EA1] m'].
  simpl in *.
  destruct (Z.eqb_spec rc 0); simpl; [|discriminate].
  specialize (Hok ltac:(assumption)).
  destruct (Hsucc ltac:(assumption)) as [_ Hsz].
  intros E. inversion E; subst EA'; clear E.
  destruct (Z.ltb_spec 0 nrec); [|assumption].
  destruct Hok as ([Hs' Ha'] & Hle' & Hb' & H4').
  split_inv; try assumption.
  split; [intros _; unfold size_ok in *; nia|intros _; eauto].
Qed.

(** X9.  Where the arithmetic of [resize] does not wrap: after a
    successful append of [nrec] records to an array that holds [c] whole
    records, the array holds [c + nrec] records; byte [t] of record
    [c + j], read at the address elasticarray_get returns, is byte
    [j * reclen + t] of the bytes appended; and every byte of the records
    that were there is as it was. *)
Theorem append_then_get EA src nrec reclen c m EA' :
  inv EA -> 0 < reclen -> 0 <= nrec ->
  size EA + nrec * reclen <= SIZE_MAX ->
  (size EA + nrec * reclen <= alloc EA ->
   2 * (size EA + nrec * reclen) <= SIZE_MAX) ->
  Z.of_nat (length src) = nrec * reclen ->
  0 <= c -> size EA = c * reclen ->
  fst (elasticarray_append EA src nrec reclen m) = Some (0, EA') ->
  elasticarray_getsize EA' reclen = c + nrec /\
  (forall j t, 0 <= j < nrec -> 0 <= t < reclen ->
     is_Some (src !! Z.to_nat (j * reclen + t)) /\
     block_data (buf EA')
       !! (elasticarray_get EA' (c + j) reclen - ptr_of (buf EA') + t)
     = src !! Z.to_nat (j * reclen + t)) /\
  (forall i t, 0 <= i < c -> 0 <= t < reclen ->
     block_data (buf EA')
       !! (elasticarray_get EA' i reclen - ptr_of (buf EA') + t)
     = block_data (buf EA) !! (i * reclen + t)).
Proof.
  intros Hinv Hl Hn Ho Hc Hsrc Hc0 Hsz Hrc.
  destruct (append_content EA src nrec reclen m EA' Hinv Hl Hn Ho Hc Hsrc Hrc)
    as (Hsize & Hold & Hnew).
  split; [|split].
  - unfold elasticarray_getsize. rewrite Hsize, Hsz.
    replace (c * reclen + nrec * reclen) with ((c + nrec) * reclen) by ring.
    apply Z.div_mul. lia.
  - intros j t Hj Ht.
    assert (Hidx : (Z.to_nat (j * reclen + t) < length src)%nat) by nia.
    destruct (lookup_lt_is_Some_2 src _ Hidx) as [b Hb].
    split; [eauto|].
    rewrite elasticarray_get_offset by nia.
    rewrite Hb.
    replace (ptr_of (buf EA') + (c + j) * reclen - ptr_of (buf EA') + t)
      with (size EA + Z.of_nat (Z.to_nat (j * reclen + t))) by nia.
    now apply Hnew.
  - intros i t Hi Ht.
    rewrite elasticarray_get_offset by nia.
    replace (ptr_of (buf EA') + i * reclen - ptr_of (buf EA') + t)
      with (i * reclen + t) by lia.
    apply Hold. nia.
Qed.

(** X8.  Where the arithmetic of [resize] does not wrap: after a
    successful append of [nrec] records, deleting [nrec] records gives back
    the logical size and the record count there were, with every byte below
    that size as it was, whatever the allocator answers to the second
    call. *)
Theorem append_then_shrink EA src nrec reclen m m2 EA1 :
  inv EA -> 0 < reclen -> 0 <= nrec ->
  2 * (size EA + nrec * reclen) <= SIZE_MAX ->
  Z.of_nat (length src) = nrec * reclen ->
  fst (elasticarray_append EA src nrec reclen m) = Some (0, EA1) ->
  size (fst (elasticarray_shrink EA1 nrec reclen m2)) = size EA /\
  elasticarray_getsize (fst (elasticarray_shrink EA1 nrec reclen m2)) reclen
    = elasticarray_getsize EA reclen /\
  (forall k, 0 <= k < size EA ->
     block_data (buf (fst (elasticarray_shrink EA1 nrec reclen m2))) !! k
     = block_data (buf EA) !! k).
Proof.
  intros Hinv Hl Hn H2 Hsrc Hrc.
  pose proof Hinv as ([Hs Ha] & _).
  assert (Hnl : 0 <= nrec * reclen) by nia.
  assert (Ho : size EA + nrec * reclen <= SIZE_MAX)
    by (unfold size_ok in *; lia).
  destruct (append_content EA src nrec reclen m EA1 Hinv Hl Hn Ho
              ltac:(intros; assumption) Hsrc Hrc) as (Hsize & Hold & _).
  pose proof (elasticarray_append_inv EA src nrec reclen m EA1 Hinv Hl Hn Ho
                ltac:(intros; assumption) Hrc) as (Hwf1 & _).
  assert (Hs1 : size_ok (size EA1))
    by (rewrite Hsize; unfold size_ok in *; lia).
  assert (Hkeep : shrink_nsize EA1 nrec reclen = size EA).
  { rewrite shrink_nsize_spec by assumption. rewrite Hsize.
    destruct (Z.ltb_spec (size EA + nrec * reclen) (nrec * reclen));
      unfold size_ok in *; lia. }
  assert (Hsz2 : size (fst (elasticarray_shrink EA1 nrec reclen m2)) = size EA)
    by (rewrite elasticarray_shrink_size; exact Hkeep).
  split; [exact Hsz2|].
  split; [unfold elasticarray_getsize; now rewrite Hsz2|].
  intros k Hk. rewrite <- (Hold k Hk).
  assert (Hbuf : buf (fst (elasticarray_shrink EA1 nrec reclen m2))
                 = buf (snd (fst (resize EA1 (size EA) m2)))).
  { unfold elasticarray_shrink, bind. rewrite Hkeep.
    destruct (resize EA1 (size EA) m2) as [[rc EA'] m']. simpl.
    destruct (rc =? 0); reflexivity. }
  rewrite Hbuf.
  apply resize_content; try assumption.
  intros _. unfold size_ok in *. lia.
Qed.

(** ** Truncating twice, and the two exports *)


(** X11.  After a successful truncation of an array whose logical size is
    within its allocation, a second truncation succeeds whatever the
    allocator would answer and leaves the array as it is: it makes no call
    to the allocator when the array is not empty, and calls free on NULL
    when it is. *)
Theorem truncate_twice EA m m2 :
  size EA <= alloc EA ->
  fst (fst (elasticarray_truncate EA m)) = 0 ->
  elasticarray_truncate (snd (fst (elasticarray_truncate EA m))) m2 =
    (0, snd (fst (elasticarray_truncate EA m)),
     if size EA =? 0 then logged m2 (EvFree None) else m2).
Proof.
  intros Hle Hrc.
  destruct (elasticarray_truncate_cases EA m)
    as [[H0 E]|[(H0 & H1 & E)|[(_ & _ & E)|([H0 H1] & a & r & _ & E)]]];
    rewrite E in Hrc |- *; simpl in Hrc |- *; try lia.
  - rewrite H0. reflexivity.
  - unfold elasticarray_truncate.
    destruct (Z.eqb_spec (size EA) 0); [lia|].
    destruct (Z.ltb_spec (size EA) (alloc EA)); [lia|].
    destruct EA; reflexivity.
  - unfold elasticarray_truncate. simpl.
    destruct (Z.eqb_spec (size EA) 0); [lia|].
    rewrite Z.ltb_irrefl. reflexivity.
Qed.


(** ** What iteration hands out, whatever the function does *)

(** X15.  Whatever [fp] does to the array (as long as the logical size
    stays a [size_t] value), every address elasticarray_iter passes to it
    is that of a whole record within the logical size the array has at the
    time of the call: replacing [fp] by any other function on all other
    addresses changes nothing in the outcome. *)
Theorem iter_within_bounds {W : Type} EA reclen
    (fp other : Z -> elasticarray * W -> elasticarray * W) w fuel :
  keeps_size_t fp -> 0 < reclen -> size_ok (size EA) ->
  elasticarray_iter fuel EA reclen (guarded reclen fp other) w =
    elasticarray_iter fuel EA reclen fp w.
Proof.
  intros Hk Hl Hs. unfold elasticarray_iter.
  assert (Hgen : forall fuel i s,
            0 <= i -> size_ok (size (fst s)) ->
            iter_loop fuel reclen (guarded reclen fp other) i s =
              iter_loop fuel reclen fp i s).
  { clear fuel. induction fuel as [|fuel IH]; intros i s Hi Hsz;
      [reflexivity|].
    simpl.
    destruct (Z.ltb_spec i (elasticarray_getsize (fst s) reclen))
      as [Hlt|Hge]; [|reflexivity].
    pose proof (getsize_bounds (fst s) reclen Hl Hsz) as [Hn Hm].
    rewrite iter_address by (assumption || lia).
    assert (Hin : in_record (fst s) reclen
                    (ptr_of (buf (fst s)) + i * reclen) = true).
    { unfold in_record.
      replace (ptr_of (buf (fst s)) + i * reclen - ptr_of (buf (fst s)))
        with (i * reclen) by lia.
      rewrite Z.mod_mul by lia.
      destruct (Z.leb_spec 0 (i * reclen)); [|nia].
      destruct (Z.leb_spec (i * reclen + reclen) (size (fst s))); [|nia].
      reflexivity. }
    unfold guarded at 2. rewrite Hin.
    apply IH.
    - pose proof (wrap_range (i + 1)) as [H0 _]. exact H0.
    - now apply Hk. }
  apply Hgen; [lia|exact Hs].
Qed.

(** ** Exactly when an operation fails *)

Lemma resize_fails_iff EA nsize m :
  fst (fst (resize EA nsize m)) <> 0 <->
  needs_realloc EA nsize /\ refused m.
Proof.
  split.
  - intros H. destruct (resize_failure EA nsize m H) as (Hn & Hr & _).
    split; assumption.
  - intros [Hn Hr]. rewrite resize_refused by assumption. simpl. lia.
Qed.

(** X16.  elasticarray_resize fails exactly when [nrec * reclen] does not
    fit in [size_t] or a reallocation is needed and refused;
    elasticarray_append returns -1 exactly when the logical size plus
    [nrec * reclen] does not fit or a reallocation is needed and refused;
    elasticarray_truncate fails exactly when there is spare space and the
    reallocation is refused.  Each of them returns 0 or -1 when it
    returns, and when it fails the array is the one it was given.  An
    append that does not fail that way returns 0 when the array satisfies
    the invariants and the arithmetic of [resize] does not wrap; without
    these its copy need not be defined. *)
Theorem failure_iff EA src nrec reclen m :
  0 < reclen -> 0 <= nrec -> size_ok (size EA) ->
  (fst (fst (elasticarray_resize EA nrec reclen m)) <> 0 <->
   SIZE_MAX < nrec * reclen \/
   (needs_realloc EA (nrec * reclen) /\ refused m)) /\
  (fst (elasticarray_append EA src nrec reclen m) = Some (-1, EA) <->
   SIZE_MAX < size EA + nrec * reclen \/
   (needs_realloc EA (size EA + nrec * reclen) /\ refused m)) /\
  (fst (fst (elasticarray_truncate EA m)) <> 0 <->
   truncate_needs_realloc EA /\ refused m) /\
  (fst (fst (elasticarray_resize EA nrec reclen m)) <> 0 ->
   fst (elasticarray_resize EA nrec reclen m) = (-1, EA)) /\
  (forall rc EA',
     fst (elasticarray_append EA src nrec reclen m) = Some (rc, EA') ->
     rc <> 0 -> rc = -1 /\ EA' = EA) /\
  (fst (fst (elasticarray_truncate EA m)) <> 0 ->
   fst (elasticarray_truncate EA m) = (-1, EA)) /\
  (inv EA ->
   (size EA + nrec * reclen <= alloc EA ->
    2 * (size EA + nrec * reclen) <= SIZE_MAX) ->
   (exists EA',
      fst (elasticarray_append EA src nrec reclen m) = Some (0, EA')) \/
   fst (elasticarray_append EA src nrec reclen m) = Some (-1, EA)).
Proof.
  intros Hl Hn Hs.
  assert (Hres :
    (fst (fst (elasticarray_resize EA nrec reclen m)) <> 0 <->
     SIZE_MAX < nrec * reclen \/
     (needs_realloc EA (nrec * reclen) /\ refused m)) /\
    (fst (fst (elasticarray_resize EA nrec reclen m)) <> 0 ->
     fst (elasticarray_resize EA nrec reclen m) = (-1, EA))).
  { destruct (Z.le_gt_cases (nrec * reclen) SIZE_MAX) as [Ho|Ho].
    - rewrite elasticarray_resize_fits by assumption. cbv zeta.
      pose proof (resize_fails_iff EA (nrec * reclen) m) as Hiff.
      pose proof (resize_failure EA (nrec * reclen) m) as Hf.
      destruct (resize EA (nrec * reclen) m) as [[rc EA'] m']. simpl in *.
      destruct (Z.eqb_spec rc 0); simpl.
      + split; [|lia]. split; [lia|].
        intros [Hov|Hnr]; [lia|]. apply Hiff in Hnr. lia.
      + destruct (Hf ltac:(assumption)) as (_ & _ & E).
        inversion E; subst. split; [|reflexivity].
        split; [intros _; right; now apply Hiff|lia].
    - rewrite elasticarray_resize_overflow by assumption. simpl.
      split; [|reflexivity]. split; [intros _; now left|lia]. }
  assert (Happ :
    (fst (elasticarray_append EA src nrec reclen m) = Some (-1, EA) <->
     SIZE_MAX < size EA + nrec * reclen \/
     (needs_realloc EA (size EA + nrec * reclen) /\ refused m)) /\
    (forall rc EA',
       fst (elasticarray_append EA src nrec reclen m) = Some (rc, EA') ->
       rc <> 0 -> rc = -1 /\ EA' = EA)).
  { destruct (Z.le_gt_cases (size EA + nrec * reclen) SIZE_MAX) as [Ho|Ho].
    - rewrite elasticarray_append_fits by assumption. cbv zeta.
      pose proof (resize_fails_iff EA (size EA + nrec * reclen) m) as Hiff.
      pose proof (resize_failure EA (size EA + nrec * reclen) m) as Hf.
      destruct (resize EA (size EA + nrec * reclen) m) as [[rc EA1] m'].
      simpl in *.
      destruct (Z.eqb_spec rc 0); simpl.
      + assert (Hno : ~ (SIZE_MAX < size EA + nrec * reclen \/
                         (needs_realloc EA (size EA + nrec * reclen) /\
                          refused m))).
        { intros [Hov|Hnr]; [lia|]. apply Hiff in Hnr. lia. }
        destruct (0 <? nrec); simpl;
          [destruct (buf EA1);
             [destruct (size EA + nrec * reclen <=? alloc EA1)|]|];
          (split;
           [split; [intros E; discriminate E|intros H; contradiction]
           |intros rc' EA' E Hrc; exfalso; inversion E; subst; lia]).
      + destruct (Hf ltac:(assumption)) as (_ & _ & E).
        inversion E; subst. split.
        * split; [intros _; right; now apply Hiff|reflexivity].
        * intros rc' EA' E' _. inversion E'; subst. split; reflexivity.
    - rewrite elasticarray_append_overflow by assumption. simpl. split.
      + split; [intros _; now left|reflexivity].
      + intros rc' EA' E' _. inversion E'; subst. split; reflexivity. }
  assert (Htr :
    (fst (fst (elasticarray_truncate EA m)) <> 0 <->
     truncate_needs_realloc EA /\ refused m) /\
    (fst (fst (elasticarray_truncate EA m)) <> 0 ->
     fst (elasticarray_truncate EA m) = (-1, EA))).
  { destruct (elasticarray_truncate_cases EA m)
      as [[H0 E]|[(H0 & H1 & E)|[(Hnr & Hr & E)|(Hnr & a & r & Ha & E)]]];
      rewrite E; simpl.
    - split; [|lia]. split; [lia|]. intros [[Hc _] _]. contradiction.
    - split; [|lia]. split; [lia|]. intros [[_ Hc] _]. lia.
    - split; [|reflexivity]. split; [intros _; split; assumption|lia].
    - split; [|lia]. split; [lia|]. intros [_ Hr].
      unfold refused in Hr. rewrite Ha in Hr. discriminate. }
  assert (Hdef :
    inv EA ->
    (size EA + nrec * reclen <= alloc EA ->
     2 * (size EA + nrec * reclen) <= SIZE_MAX) ->
    (exists EA',
       fst (elasticarray_append EA src nrec reclen m) = Some (0, EA')) \/
    fst (elasticarray_append EA src nrec reclen m) = Some (-1, EA)).
  { intros Hinv Hc.
    destruct (Z.le_gt_cases (size EA + nrec * reclen) SIZE_MAX) as [Ho|Ho].
    - rewrite (elasticarray_append_outcome EA src nrec reclen m)
        by assumption.
      cbv zeta.
      pose proof (resize_failure EA (size EA + nrec * reclen) m) as Hf.
      destruct (resize EA (size EA + nrec * reclen) m) as [[rc EA1] m'].
      simpl in *.
      destruct (Z.eqb_spec rc 0); simpl.
      + left. eexists. reflexivity.
      + destruct (Hf ltac:(assumption)) as (_ & _ & E).
        inversion E; subst. right. reflexivity.
    - rewrite elasticarray_append_overflow by assumption. simpl.
      right. reflexivity. }
  destruct Hres as [R1 R2]. destruct Happ as [A1 A2]. destruct Htr as [T1 T2].
  split; [exact R1|]. split; [exact A1|]. split; [exact T1|].
  split; [exact R2|]. split; [exact A2|]. split; [exact T2|exact Hdef].
Qed.

End Properties.

(** * Concrete runs *)

Section Runs32.

Local Existing Instance size32.

(** Closed goals on [size_t] ranges and on [resize_nalloc] are settled by
    evaluation. *)
Ltac by_eval :=
  vm_compute; repeat split; (reflexivity || discriminate).

(** C1 (failing input).  With 32-bit sizes and an allocator that grants
    its requests, elasticarray_init(2^31, 1) returns an array that
    satisfies the invariants; elasticarray_resize(EA, 2^31, 1), an append
    of no record and a shrink by no record each release its storage and
    leave a logical size of 2^31 bytes with an allocation of 0 bytes, the
    first two reporting success. *)
Theorem resize_breaks_size_within_alloc :
  elasticarray_init (2 ^ 31) 1 grants = (Some big32, big32_mem) /\
  inv big32 /\
  elasticarray_resize big32 (2 ^ 31) 1 big32_mem =
    (0, EArr (2 ^ 31) 0 None, logged big32_mem (EvFree (Some 4096))) /\
  elasticarray_append big32 [] 0 1 big32_mem =
    (Some (0, EArr (2 ^ 31) 0 None),
     logged big32_mem (EvFree (Some 4096))) /\
  elasticarray_shrink big32 0 1 big32_mem =
    (EArr (2 ^ 31) 0 None, logged big32_mem (EvFree (Some 4096))) /\
  ~ size (EArr (2 ^ 31) 0 None) <= alloc (EArr (2 ^ 31) 0 None).
Proof.
  split; [vm_compute; reflexivity|].
  split; [apply (bool_decide_unpack _); vm_compute; exact I|].
  split; [vm_compute; reflexivity|].
  split; [vm_compute; reflexivity|].
  split; [vm_compute; reflexivity|].
  simpl. lia.
Qed.

(** C5 (failing input).  With 32-bit sizes and an allocator that grants
    its requests: three bytes are appended to an empty array, which is
    resized to 2^31 bytes; the array then satisfies the invariants and its
    first byte is the first byte appended.  An append of no record then
    reports success, but the storage has been released: no byte of the
    array is left, while its logical size is 2^31.  With a resize to
    2^30 + 1 bytes in between, the allocation is 2^31 + 2 bytes and, in an
    append of one byte, the call of [resize] reports success with the
    storage reallocated to 2 bytes: the byte at offset 2 is gone, while
    the logical size is 2^31 + 1; the copy of the appended byte then goes
    to offset 2^31 of that block of 2 bytes, and the append has no defined
    outcome. *)
Theorem append_loses_content :
  (exists m0 EA1 m1,
     elasticarray_init 0 1 grants = (Some (EArr 0 0 None), m0) /\
     elasticarray_append (EArr 0 0 None) abc 3 1 m0 = (Some (0, EA1), m1) /\
     elasticarray_resize EA1 (2 ^ 31) 1 m1 = (0, filled32, filled32_mem)) /\
  inv filled32 /\
  block_data (buf filled32) !! 0 = Some x61 /\
  elasticarray_append filled32 [] 0 1 filled32_mem =
    (Some (0, EArr (2 ^ 31) 0 None),
     logged filled32_mem (EvFree (Some 8192))) /\
  block_data (buf (EArr (2 ^ 31) 0 None)) !! 0 = None /\
  (exists m0 EA1 m1 EA2 m2,
     elasticarray_init 0 1 grants = (Some (EArr 0 0 None), m0) /\
     elasticarray_append (EArr 0 0 None) abc 3 1 m0 = (Some (0, EA1), m1) /\
     elasticarray_resize EA1 (2 ^ 30 + 1) 1 m1 = (0, EA2, m2) /\
     elasticarray_resize EA2 (2 ^ 31) 1 m2 = (0, grown32, grown32_mem)) /\
  inv grown32 /\
  block_data (buf grown32) !! 2 = Some x63 /\
  fst (fst (resize grown32 (2 ^ 31 + 1) grown32_mem)) = 0 /\
  size (snd (fst (resize grown32 (2 ^ 31 + 1) grown32_mem))) = 2 ^ 31 + 1 /\
  alloc (snd (fst (resize grown32 (2 ^ 31 + 1) grown32_mem))) = 2 /\
  block_data (buf (snd (fst (resize grown32 (2 ^ 31 + 1) grown32_mem)))) !! 2
    = None /\
  elasticarray_append grown32 [x64] 1 1 grown32_mem =
    (None, snd (resize grown32 (2 ^ 31 + 1) grown32_mem)) /\
  log (snd (elasticarray_append grown32 [x64] 1 1 grown32_mem)) =
    log grown32_mem ++ [EvRealloc (Some 12288) 2 (Some 16384)].
Proof.
  split.
  { eexists _, _, _. repeat split; vm_compute; reflexivity. }
  split; [apply (bool_decide_unpack _); vm_compute; exact I|].
  split; [vm_compute; reflexivity|].
  split; [vm_compute; reflexivity|].
  split; [vm_compute; reflexivity|].
  split.
  { eexists _, _, _, _, _. repeat split; vm_compute; reflexivity. }
  split; [apply (bool_decide_unpack _); vm_compute; exact I|].
  repeat split; vm_compute; reflexivity.
Qed.

(** C3 (as stated, it fails).  With 32-bit sizes: for an allocation of
    2^31 bytes and a target of 2^31 + 1 bytes the new allocation is the
    target, not max(T, 2A) = 2^32; and for an allocation and a target of
    2^30 bytes, where A < T and A > 4T are both false, the allocation does
    not stay: it becomes 2^31 bytes. *)
Lemma resize_policy_as_stated_fails :
  (2 ^ 31 < 2 ^ 31 + 1 /\
   resize_nalloc (2 ^ 31) (2 ^ 31 + 1) = 2 ^ 31 + 1 /\
   alloc (snd (fst (resize big32 (2 ^ 31 + 1) big32_mem))) = 2 ^ 31 + 1 /\
   2 ^ 31 + 1 <> Z.max (2 ^ 31 + 1) (2 * 2 ^ 31)) /\
  (~ 2 ^ 30 < 2 ^ 30 /\ ~ 2 ^ 30 > 4 * 2 ^ 30 /\
   resize_nalloc (2 ^ 30) (2 ^ 30) = 2 ^ 31 /\
   2 ^ 31 <> 2 ^ 30).
Proof.
  split.
  - split; [lia|]. split; [vm_compute; reflexivity|].
    split; [vm_compute; reflexivity|]. lia.
  - split; [lia|]. split; [lia|]. split; [vm_compute; reflexivity|]. lia.
Qed.

(** C9 (as stated, it fails).  An array holds two records of four bytes
    when elasticarray_iter is called with a function that deletes the last
    record of the array: the test of the loop reads the size again before
    every call, and the function is called once, on record 0, not once per
    record of the array as it was when the call started. *)
Lemma iter_follows_current_size :
  elasticarray_getsize two_records 4 = 2 /\
  elasticarray_iter 3 two_records 4 shrinking_fp (granting, []) =
    Some (EArr 4 8 (Some (Block 4096 ∅)), (granting, [4096])) /\
  [4096] <> (fun i => ptr_of (buf two_records) + i * 4) <$> seqZ 0 2.
Proof.
  split; [vm_compute; reflexivity|].
  split; [vm_compute; reflexivity|].
  vm_compute. discriminate.
Qed.

(** ** Instances of the theorems *)

(** [realloc_failure] on the small array, with an allocator that refuses. *)
Lemma realloc_failure_witness :
  refused refusing /\
  resize small_array 32 refusing =
    (-1, small_array, answered refusing (EvRealloc (Some 4096) 32 None)) /\
  elasticarray_resize small_array 8 4 refusing =
    (-1, small_array, answered refusing (EvRealloc (Some 4096) 32 None)) /\
  elasticarray_append small_array [x65; x66; x67; x68] 7 4 refusing =
    (Some (-1, small_array),
     answered refusing (EvRealloc (Some 4096) 32 None)) /\
  elasticarray_truncate small_array refusing =
    (-1, small_array, answered refusing (EvRealloc (Some 4096) 4 None)) /\
  elasticarray_init 8 4 (Mem [Some 16; None] [] None) =
    (None,
     Mem [] [EvMallocEA true; EvRealloc None 32 None; EvFree None; EvFreeEA]
       None) /\
  elasticarray_shrink small_array 1 3 refusing =
    (EArr 1 16 (buf small_array),
     answered refusing (EvRealloc (Some 4096) 2 None)) /\
  shrink_nsize small_array 1 3 <= alloc small_array.
Proof.
  assert (Hr : refused refusing) by reflexivity.
  destruct (realloc_failure small_array refusing Hr)
    as (H1 & H2 & H3 & H4 & H5 & H6).
  split; [exact Hr|].
  split; [apply (H1 32); by_eval|].
  split; [apply (H2 8 4); try lia; by_eval|].
  split; [apply (H3 [x65; x66; x67; x68] 7 4); try lia; by_eval|].
  split; [apply H4; by_eval|].
  split; [apply (H5 8 4 (Mem [Some 16; None] [] None) 16);
          try lia; try reflexivity; by_eval|].
  destruct (H6 1 3) as [H6a H6b]; [by_eval|].
  split; [exact H6a|apply H6b; by_eval].
Defined.

(** [resize_policy] on a shrinking, a growing and an emptying call. *)
Lemma resize_policy_witness :
  (wf small_array /\ size_ok 2 /\
   resize_nalloc (alloc small_array) 2 = 4 /\
   alloc (snd (fst (resize small_array 2 granting))) = 4 /\
   size (snd (fst (resize small_array 2 granting))) = 2) /\
  (wf (EArr 4 4 None) /\ size_ok 6 /\
   resize_nalloc (alloc (EArr 4 4 None)) 6 = 8) /\
  (size_ok 0 /\
   resize small_array 0 granting =
     (0, EArr 0 0 None, logged granting (EvFree (Some 4096)))).
Proof.
  split; [|split].
  - assert (Hw : wf small_array) by by_eval.
    assert (Ht : size_ok 2) by by_eval.
    destruct (resize_policy small_array 2 granting Hw Ht)
      as (_ & H2 & H3 & _ & _).
    split; [exact Hw|]. split; [exact Ht|].
    split; [apply H2; by_eval|].
    apply H3. by_eval.
  - assert (Hw : wf (EArr 4 4 None)) by by_eval.
    assert (Ht : size_ok 6) by by_eval.
    destruct (resize_policy (EArr 4 4 None) 6 granting Hw Ht)
      as (H1 & _ & _ & _ & _).
    split; [exact Hw|]. split; [exact Ht|].
    apply H1. by_eval.
  - assert (Hw : wf small_array) by by_eval.
    assert (Ht : size_ok 0) by by_eval.
    destruct (resize_policy small_array 0 granting Hw Ht)
      as (_ & _ & _ & H4 & _).
    split; [exact Ht|].
    apply H4. by_eval.
Defined.

(** [overflow_fails] for [SIZE_MAX] records of two bytes. *)
Lemma overflow_fails_witness :
  0 < 2 /\ 0 <= SIZE_MAX /\ size_ok (size small_array) /\
  elasticarray_resize small_array SIZE_MAX 2 granting =
    (-1, small_array, Mem [Some 8192] [EvMallocEA true] (Some ENOMEM)) /\
  elasticarray_append small_array [] SIZE_MAX 2 granting =
    (Some (-1, small_array),
     Mem [Some 8192] [EvMallocEA true] (Some ENOMEM)) /\
  elasticarray_init SIZE_MAX 2 granting =
    (None,
     Mem [] [EvMallocEA true; EvMallocEA true; EvFree None; EvFreeEA]
       (Some ENOMEM)).
Proof.
  assert (Hl : 0 < 2) by lia.
  assert (Hn : 0 <= SIZE_MAX) by by_eval.
  assert (Hs : size_ok (size small_array)) by by_eval.
  destruct (overflow_fails small_array [] SIZE_MAX 2 granting Hl Hn Hs)
    as (H1 & H2 & H3 & _).
  split; [exact Hl|]. split; [exact Hn|]. split; [exact Hs|].
  split; [apply H1; by_eval|].
  split; [apply H2; by_eval|].
  apply H3. by_eval.
Defined.

(** [shrink_count]: five records are deleted from an array of two. *)
Lemma shrink_count_witness :
  0 < 4 /\ 0 <= 5 /\ size_ok (size (EArr 8 8 (Some (Block 4096 ∅)))) /\
  elasticarray_getsize
    (fst (elasticarray_shrink (EArr 8 8 (Some (Block 4096 ∅))) 5 4 granting)) 4
    = Z.max 0 (elasticarray_getsize (EArr 8 8 (Some (Block 4096 ∅))) 4 - 5) /\
  size (fst (elasticarray_shrink (EArr 8 8 (Some (Block 4096 ∅))) 5 4 granting))
    = 0.
Proof.
  assert (Hl : 0 < 4) by lia.
  assert (Hn : 0 <= 5) by lia.
  assert (Hs : size_ok (size (EArr 8 8 (Some (Block 4096 ∅))))) by by_eval.
  destruct (shrink_count (EArr 8 8 (Some (Block 4096 ∅))) 5 4 granting
              Hl Hn Hs) as (H1 & H2 & _).
  split; [exact Hl|]. split; [exact Hn|]. split; [exact Hs|].
  split; [exact H1|].
  apply H2. by_eval.
Defined.


(** [truncate_exact] on the small array, granted and refused, on an empty
    array that has storage, and on the worked example. *)
Lemma truncate_exact_witness :
  size small_array <> 0 /\ size small_array < alloc small_array /\
  elasticarray_truncate small_array granting =
    (0,
     EArr 4 4
       (Some (Block 8192 (prefix_bytes (block_data (buf small_array)) 4))),
     answered granting (EvRealloc (Some 4096) 4 (Some 8192))) /\
  refused refusing /\
  elasticarray_truncate small_array refusing =
    (-1, small_array, answered refusing (EvRealloc (Some 4096) 4 None)) /\
  elasticarray_truncate (EArr 0 16 (buf small_array)) refusing =
    (0, EArr 0 0 None, logged refusing (EvFree (Some 4096))) /\
  alloc (snd (fst (elasticarray_truncate small_array granting))) = 4 /\
  (exists EA m1,
     elasticarray_init 10 8 grants = (Some EA, m1) /\
     elasticarray_truncate EA m1 = (0, EA, m1) /\
     alloc EA = 80 /\ size EA = 80 /\
     fst (fst (elasticarray_truncate EA m1)) = 0 /\
     alloc (snd (fst (elasticarray_truncate EA m1))) = 80 /\
     size (snd (fst (elasticarray_truncate EA m1))) = 80).
Proof.
  destruct truncate_exact as [H1 H2].
  assert (Hn0 : size small_array <> 0) by by_eval.
  assert (Hlt : size small_array < alloc small_array) by by_eval.
  assert (Hle : size small_array <= alloc small_array) by by_eval.
  assert (Hr : refused refusing) by reflexivity.
  assert (Hrc : fst (fst (elasticarray_truncate small_array granting)) = 0)
    by by_eval.
  destruct (H1 small_array granting) as (_ & Hg & _ & _ & Hs).
  destruct (H1 small_array refusing) as (_ & _ & Hf & _).
  destruct (H1 (EArr 0 16 (buf small_array)) refusing) as (Hz & _).
  destruct (Hs Hle Hrc) as (Ha & _).
  split; [exact Hn0|]. split; [exact Hlt|].
  split; [exact (Hg Hn0 Hlt 8192 [] eq_refl)|].
  split; [exact Hr|]. split; [exact (Hf Hn0 Hlt Hr)|].
  split; [exact (Hz eq_refl)|]. split; [exact Ha|].
  apply (H2 grants 16 4096 [Some 8192; Some 12288; Some 16384]).
  - by_eval.
  - reflexivity.
Defined.

(** [iter_in_order] on two records of four bytes. *)
Lemma iter_in_order_witness :
  keeps_size record_call /\ 0 < 4 /\ size_ok (size two_records) /\
  elasticarray_iter 3 two_records 4 record_call [] =
    Some (two_records, [4096; 4100]).
Proof.
  assert (Hk : keeps_size record_call) by (intros p s; reflexivity).
  assert (Hl : 0 < 4) by lia.
  assert (Hs : size_ok (size two_records)) by by_eval.
  assert (Hf : (Z.to_nat (elasticarray_getsize two_records 4) < 3)%nat)
    by (vm_compute; lia).
  destruct (iter_in_order two_records 4 record_call [] 3 Hk Hl Hs Hf)
    as [_ H2].
  split; [exact Hk|]. split; [exact Hl|]. split; [exact Hs|]. exact H2.
Defined.

(** [shrink_overflow_empties] for 2^31 records of two bytes. *)
Lemma shrink_overflow_empties_witness :
  0 <= alloc small_array /\ SIZE_MAX / 2 < 2 ^ 31 /\
  elasticarray_shrink small_array (2 ^ 31) 2 granting =
    (EArr 0 0 None, logged granting (EvFree (Some 4096))).
Proof.
  assert (Ha : 0 <= alloc small_array) by by_eval.
  assert (Ho : SIZE_MAX / 2 < 2 ^ 31) by by_eval.
  destruct (shrink_overflow_empties small_array (2 ^ 31) 2 granting Ha Ho)
    as (_ & H & _).
  split; [exact Ha|]. split; [exact Ho|]. exact H.
Defined.

(** ** Instances of the further properties *)

(** Closed instances of the invariants are decided. *)
Ltac by_decide := apply (bool_decide_unpack _); vm_compute; exact I.

(** [operations_preserve_inv] on the small array. *)
Lemma operations_preserve_inv_witness :
  inv small_array /\ 0 < 4 /\ 0 <= 2 /\
  inv (snd (fst (elasticarray_resize small_array 2 4 granting))) /\
  (exists rc EA',
     fst (elasticarray_append small_array eight_bytes 2 4 granting)
       = Some (rc, EA') /\
     (rc = 0 -> inv EA') /\ (rc <> 0 -> EA' = small_array)) /\
  size (fst (elasticarray_shrink small_array 2 4 granting))
    <= alloc (fst (elasticarray_shrink small_array 2 4 granting)) /\
  inv (snd (fst (elasticarray_truncate small_array granting))).
Proof.
  assert (Hi : inv small_array) by by_decide.
  assert (Hl : 0 < 4) by lia.
  assert (Hn : 0 <= 2) by lia.
  destruct (operations_preserve_inv small_array eight_bytes 2 4 granting
              Hi Hl Hn) as (H1 & H2 & H3 & H4).
  split; [exact Hi|]. split; [exact Hl|]. split; [exact Hn|].
  split; [apply H1; by_eval|].
  split; [apply H2; by_eval|].
  split; [apply H3; by_eval|].
  apply H4. by_eval.
Defined.

(** [append_seq_count] on two batches. *)
Lemma append_seq_count_witness :
  exists EA' m',
    append_seq (EArr 0 0 None) two_batches 4 grants = Some (EA', m') /\
    elasticarray_getsize EA' 4 = 1 + (2 + 0).
Proof.
  eexists _, _. split; [vm_compute; reflexivity|].
  eapply (append_seq_count (EArr 0 0 None) two_batches 4 grants).
  - lia.
  - reflexivity.
  - repeat constructor; simpl; lia.
  - vm_compute. reflexivity.
Defined.

(** [lifecycle_accounted]: an array is created and freed, or exported. *)
Lemma lifecycle_accounted_witness :
  (exists EA0 m1,
     elasticarray_init 2 4 grants = (Some EA0, m1) /\
     live_structs (log m1) = live_structs (log grants) + 1 /\
     live_blocks (log m1) = live_blocks (log grants) + present (buf EA0) /\
     live_structs (log (snd (elasticarray_free (Some EA0) m1)))
       = live_structs (log grants) /\
     live_blocks (log (snd (elasticarray_free (Some EA0) m1)))
       = live_blocks (log grants)) /\
  (exists m1,
     elasticarray_init 2 4 refusing = (None, m1) /\
     live_structs (log m1) = live_structs (log refusing) /\
     live_blocks (log m1) = live_blocks (log refusing)) /\
  (exists out m1,
     elasticarray_export small_array 2 granting = (0, Some out, None, m1) /\
     live_structs (log m1) = live_structs (log granting) - 1 /\
     live_blocks (log m1)
       = live_blocks (log granting) + present (out_buf out)
         - present (buf small_array)).
Proof.
  split; [|split].
  - destruct (lifecycle_accounted small_array 2 4 grants) as (H & _).
    eexists _, _. split; [vm_compute; reflexivity|].
    apply H. vm_compute. reflexivity.
  - destruct (lifecycle_accounted small_array 2 4 refusing) as (_ & H & _).
    eexists _. split; [vm_compute; reflexivity|].
    apply H. vm_compute. reflexivity.
  - destruct (lifecycle_accounted small_array 2 2 granting)
      as (_ & _ & _ & _ & H & _).
    eexists _, _. split; [vm_compute; reflexivity|].
    apply H. vm_compute. reflexivity.
Defined.

(** [init_result] for two records of four bytes. *)
Lemma init_result_witness :
  0 < 4 /\ 0 <= 2 /\ 2 * 4 <= SIZE_MAX /\
  (exists EA m1,
     elasticarray_init 2 4 grants = (Some EA, m1) /\
     size EA = 2 * 4 /\ alloc EA = 2 * 4 /\
     elasticarray_getsize EA 4 = 2 /\ inv EA /\ block_data (buf EA) = ∅) /\
  is_Some (fst (elasticarray_init 2 4 grants)).
Proof.
  assert (Hl : 0 < 4) by lia.
  assert (Hn : 0 <= 2) by lia.
  assert (Ho : 2 * 4 <= SIZE_MAX) by by_eval.
  destruct (init_result 2 4 grants Hl Hn Ho) as (H1 & H2 & _).
  split; [exact Hl|]. split; [exact Hn|]. split; [exact Ho|].
  split.
  - eexists _, _. split; [vm_compute; reflexivity|].
    eapply H1. vm_compute. reflexivity.
  - apply (H2 16 4096 [Some 8192; Some 12288; Some 16384]). reflexivity.
Defined.

(** [resize_within_alloc_iff] on the small array and on the array of 2^31
    bytes. *)
Lemma resize_within_alloc_iff_witness :
  (wf small_array /\ size_ok 2 /\
   fst (fst (resize small_array 2 granting)) = 0 /\
   (size (snd (fst (resize small_array 2 granting)))
      <= alloc (snd (fst (resize small_array 2 granting)))
    <-> ~ (2 <= alloc small_array /\ SIZE_MAX < 2 * 2 /\
           wrap (2 * 4) < alloc small_array))) /\
  (wf big32 /\ size_ok (2 ^ 31) /\
   fst (fst (resize big32 (2 ^ 31) big32_mem)) = 0 /\
   (size (snd (fst (resize big32 (2 ^ 31) big32_mem)))
      <= alloc (snd (fst (resize big32 (2 ^ 31) big32_mem)))
    <-> ~ (2 ^ 31 <= alloc big32 /\ SIZE_MAX < 2 * 2 ^ 31 /\
           wrap (2 ^ 31 * 4) < alloc big32))).
Proof.
  split.
  - assert (Hw : wf small_array) by by_eval.
    assert (Ht : size_ok 2) by by_eval.
    assert (Hrc : fst (fst (resize small_array 2 granting)) = 0) by by_eval.
    split; [exact Hw|]. split; [exact Ht|]. split; [exact Hrc|].
    exact (resize_within_alloc_iff small_array 2 granting Hw Ht Hrc).
  - assert (Hw : wf big32) by by_eval.
    assert (Ht : size_ok (2 ^ 31)) by by_eval.
    assert (Hrc : fst (fst (resize big32 (2 ^ 31) big32_mem)) = 0) by by_eval.
    split; [exact Hw|]. split; [exact Ht|]. split; [exact Hrc|].
    exact (resize_within_alloc_iff big32 (2 ^ 31) big32_mem Hw Ht Hrc).
Defined.

(** [no_allocator_call_within_capacity] on the small array. *)
Lemma no_allocator_call_within_capacity_witness :
  wf small_array /\ 0 < 4 /\ 0 <= 2 /\
  elasticarray_resize small_array 2 4 refusing =
    (0, EArr 8 16 (buf small_array), refusing) /\
  (exists EA',
     elasticarray_append small_array eight_bytes 2 4 refusing =
       (Some (0, EA'), refusing) /\
     alloc EA' = alloc small_array /\
     size EA' = size small_array + 2 * 4 /\
     ptr_of (buf EA') = ptr_of (buf small_array)) /\
  elasticarray_shrink small_array 0 4 refusing =
    (EArr 4 16 (buf small_array), refusing).
Proof.
  assert (Hw : wf small_array) by by_eval.
  assert (Hl : 0 < 4) by lia.
  assert (Hn : 0 <= 2) by lia.
  assert (Hz : 0 <= 0) by lia.
  destruct (no_allocator_call_within_capacity small_array eight_bytes 2 4
              refusing Hw Hl Hn) as (H1 & H2 & _).
  destruct (no_allocator_call_within_capacity small_array eight_bytes 0 4
              refusing Hw Hl Hz) as (_ & _ & H3).
  split; [exact Hw|]. split; [exact Hl|]. split; [exact Hn|].
  split; [apply H1; by_eval|].
  assert (Ha1 : 0 < size small_array + 2 * 4) by by_eval.
  assert (Ha2 : size small_array + 2 * 4 <= alloc small_array) by by_eval.
  assert (Ha3 : alloc small_array <= 4 * (size small_array + 2 * 4))
    by by_eval.
  assert (Ha4 : 4 * (size small_array + 2 * 4) <= SIZE_MAX) by by_eval.
  assert (Ha5 : 0 < 2 -> is_Some (buf small_array))
    by (intros _; eexists; reflexivity).
  split; [exact (H2 Ha1 Ha2 Ha3 Ha4 Ha5)|].
  apply H3; by_eval.
Defined.

(** [append_then_shrink] on the small array. *)
Lemma append_then_shrink_witness :
  inv small_array /\ 0 < 4 /\ 0 <= 2 /\
  2 * (size small_array + 2 * 4) <= SIZE_MAX /\
  Z.of_nat (length eight_bytes) = 2 * 4 /\
  exists EA1,
    fst (elasticarray_append small_array eight_bytes 2 4 granting)
      = Some (0, EA1) /\
    size (fst (elasticarray_shrink EA1 2 4 refusing)) = size small_array.
Proof.
  assert (Hi : inv small_array) by by_decide.
  assert (Hl : 0 < 4) by lia.
  assert (Hn : 0 <= 2) by lia.
  assert (H2 : 2 * (size small_array + 2 * 4) <= SIZE_MAX) by by_eval.
  assert (Hs : Z.of_nat (length eight_bytes) = 2 * 4) by reflexivity.
  split; [exact Hi|]. split; [exact Hl|]. split; [exact Hn|].
  split; [exact H2|]. split; [exact Hs|].
  eexists. split; [vm_compute; reflexivity|].
  eapply (append_then_shrink small_array eight_bytes 2 4 granting refusing).
  - exact Hi.
  - exact Hl.
  - exact Hn.
  - exact H2.
  - exact Hs.
  - vm_compute. reflexivity.
Defined.

(** [append_then_get] on the small array, which holds one record. *)
Lemma append_then_get_witness :
  inv small_array /\ 0 < 4 /\ 0 <= 2 /\
  size small_array + 2 * 4 <= SIZE_MAX /\
  Z.of_nat (length eight_bytes) = 2 * 4 /\
  0 <= 1 /\ size small_array = 1 * 4 /\
  exists EA',
    fst (elasticarray_append small_array eight_bytes 2 4 granting)
      = Some (0, EA') /\
    elasticarray_getsize EA' 4 = 1 + 2.
Proof.
  assert (Hi : inv small_array) by by_decide.
  assert (Hl : 0 < 4) by lia.
  assert (Hn : 0 <= 2) by lia.
  assert (Ho : size small_array + 2 * 4 <= SIZE_MAX) by by_eval.
  assert (Hc : size small_array + 2 * 4 <= alloc small_array ->
               2 * (size small_array + 2 * 4) <= SIZE_MAX)
    by (intros _; by_eval).
  assert (Hs : Z.of_nat (length eight_bytes) = 2 * 4) by reflexivity.
  assert (Hc0 : 0 <= 1) by lia.
  assert (Hsz : size small_array = 1 * 4) by reflexivity.
  split; [exact Hi|]. split; [exact Hl|]. split; [exact Hn|].
  split; [exact Ho|]. split; [exact Hs|]. split; [exact Hc0|].
  split; [exact Hsz|].
  eexists. split; [vm_compute; reflexivity|].
  eapply (append_then_get small_array eight_bytes 2 4 1 granting).
  - exact Hi.
  - exact Hl.
  - exact Hn.
  - exact Ho.
  - exact Hc.
  - exact Hs.
  - exact Hc0.
  - exact Hsz.
  - vm_compute. reflexivity.
Defined.

(** [records_within_size] for the second of two records. *)
Lemma records_within_size_witness :
  0 < 4 /\ size_ok (size two_records) /\
  0 <= 1 < elasticarray_getsize two_records 4 /\
  elasticarray_get two_records 1 4 = ptr_of (buf two_records) + 1 * 4 /\
  elasticarray_get two_records 1 4 + 4
    <= ptr_of (buf two_records) + size two_records.
Proof.
  assert (Hl : 0 < 4) by lia.
  assert (Hs : size_ok (size two_records)) by by_eval.
  assert (Hi : 0 <= 1 < elasticarray_getsize two_records 4) by by_eval.
  destruct (records_within_size two_records 4 1 Hl Hs Hi) as (H1 & H2 & _).
  split; [exact Hl|]. split; [exact Hs|]. split; [exact Hi|].
  split; [exact H1|exact H2].
Defined.

(** [truncate_twice] on the small array. *)
Lemma truncate_twice_witness :
  size small_array <= alloc small_array /\
  fst (fst (elasticarray_truncate small_array granting)) = 0 /\
  elasticarray_truncate
    (snd (fst (elasticarray_truncate small_array granting))) refusing =
    (0, snd (fst (elasticarray_truncate small_array granting)), refusing).
Proof.
  assert (Hle : size small_array <= alloc small_array) by by_eval.
  assert (Hrc : fst (fst (elasticarray_truncate small_array granting)) = 0)
    by by_eval.
  split; [exact Hle|]. split; [exact Hrc|].
  exact (truncate_twice small_array granting refusing Hle Hrc).
Defined.


(** [resize_then_getsize] on the small array. *)
Lemma resize_then_getsize_witness :
  wf small_array /\ 0 < 4 /\ 0 <= 2 /\
  fst (fst (elasticarray_resize small_array 2 4 granting)) = 0 /\
  elasticarray_getsize
    (snd (fst (elasticarray_resize small_array 2 4 granting))) 4 = 2.
Proof.
  assert (Hw : wf small_array) by by_eval.
  assert (Hl : 0 < 4) by lia.
  assert (Hn : 0 <= 2) by lia.
  assert (Hrc : fst (fst (elasticarray_resize small_array 2 4 granting)) = 0)
    by by_eval.
  destruct (resize_then_getsize small_array 2 4 granting Hw Hl Hn Hrc)
    as (H & _).
  split; [exact Hw|]. split; [exact Hl|]. split; [exact Hn|].
  split; [exact Hrc|exact H].
Defined.

(** [shrink_keeps_prefix] on the small array, with the reallocation
    granted. *)
Lemma shrink_keeps_prefix_witness :
  inv small_array /\ 2 * shrink_nsize small_array 1 3 <= SIZE_MAX /\
  size (fst (elasticarray_shrink small_array 1 3 granting)) = 1 /\
  inv (fst (elasticarray_shrink small_array 1 3 granting)).
Proof.
  assert (Hi : inv small_array) by by_decide.
  assert (Hc : 2 * shrink_nsize small_array 1 3 <= SIZE_MAX) by by_eval.
  destruct (shrink_keeps_prefix small_array 1 3 granting Hi Hc)
    as (H1 & _ & _ & H4).
  split; [exact Hi|]. split; [exact Hc|]. split; [exact H1|].
  apply H4. intros [_ Hr]. vm_compute in Hr. discriminate.
Defined.

(** [iter_within_bounds] on two records of four bytes. *)
Lemma iter_within_bounds_witness :
  keeps_size_t record_call /\ 0 < 4 /\ size_ok (size two_records) /\
  elasticarray_iter 3 two_records 4 (guarded 4 record_call emptying_fp) [] =
    elasticarray_iter 3 two_records 4 record_call [].
Proof.
  assert (Hk : keeps_size_t record_call) by (intros p s H; exact H).
  assert (Hl : 0 < 4) by lia.
  assert (Hs : size_ok (size two_records)) by by_eval.
  split; [exact Hk|]. split; [exact Hl|]. split; [exact Hs|].
  exact (iter_within_bounds two_records 4 record_call emptying_fp [] 3
           Hk Hl Hs).
Defined.

(** [failure_iff] on the small array: with an allocator that refuses the
    three operations fail, and with one that grants the append returns. *)
Lemma failure_iff_witness :
  0 < 4 /\ 0 <= 8 /\ size_ok (size small_array) /\
  fst (fst (elasticarray_resize small_array 8 4 refusing)) <> 0 /\
  fst (elasticarray_resize small_array 8 4 refusing) = (-1, small_array) /\
  fst (elasticarray_append small_array [] 8 4 refusing)
    = Some (-1, small_array) /\
  fst (fst (elasticarray_truncate small_array refusing)) <> 0 /\
  inv small_array /\
  ((exists EA',
      fst (elasticarray_append small_array [] 8 4 granting) = Some (0, EA')) \/
   fst (elasticarray_append small_array [] 8 4 granting)
     = Some (-1, small_array)).
Proof.
  assert (Hl : 0 < 4) by lia.
  assert (Hn : 0 <= 8) by lia.
  assert (Hs : size_ok (size small_array)) by by_eval.
  assert (Hi : inv small_array) by by_decide.
  destruct (failure_iff small_array [] 8 4 refusing Hl Hn Hs)
    as (H1 & H2 & H3 & H4 & _).
  destruct (failure_iff small_array [] 8 4 granting Hl Hn Hs)
    as (_ & _ & _ & _ & _ & _ & H7).
  assert (Hf : fst (fst (elasticarray_resize small_array 8 4 refusing)) <> 0).
  { apply H1. right. by_eval. }
  split; [exact Hl|]. split; [exact Hn|]. split; [exact Hs|].
  split; [exact Hf|]. split; [exact (H4 Hf)|].
  split; [apply H2; right; by_eval|].
  split; [apply H3; by_eval|].
  split; [exact Hi|].
  apply H7; [exact Hi|]. intros Hle. vm_compute in Hle.
  exfalso. apply Hle. reflexivity.
Defined.

(** [mutators_accounted] on the small array, with a reallocation granted
    by the shrink and by the truncation. *)
Lemma mutators_accounted_witness :
  (exists rc EA',
     fst (elasticarray_append small_array eight_bytes 2 4 granting)
       = Some (rc, EA') /\
     storage_calls small_array granting EA'
       (snd (elasticarray_append small_array eight_bytes 2 4 granting)) /\
     accounted small_array granting EA'
       (snd (elasticarray_append small_array eight_bytes 2 4 granting))) /\
  storage_calls small_array granting
    (fst (elasticarray_shrink small_array 1 3 granting))
    (snd (elasticarray_shrink small_array 1 3 granting)) /\
  storage_calls small_array granting
    (snd (fst (elasticarray_truncate small_array granting)))
    (snd (elasticarray_truncate small_array granting)).
Proof.
  destruct (mutators_accounted small_array eight_bytes 2 4 0 granting)
    as (_ & _ & H3 & _ & [H5 _]).
  destruct (mutators_accounted small_array eight_bytes 1 3 0 granting)
    as (_ & _ & _ & [H4 _] & _).
  split; [|split; [exact H4|exact H5]].
  eexists _, _. split; [vm_compute; reflexivity|].
  eapply H3. vm_compute. reflexivity.
Defined.

End Runs32.

(** * The scenarios of the specification, with 64-bit sizes *)

Section Runs64.

Local Existing Instance size64.

(** elasticarray_init(0, 4): no record and no allocation. *)
Example scenario_empty :
  elasticarray_init 0 4 grants =
    (Some (EArr 0 0 None),
     Mem [Some 4096; Some 8192; Some 12288; Some 16384]
       [EvMallocEA true; EvFree None] None) /\
  elasticarray_getsize (EArr 0 0 None) 4 = 0.
Proof. split; vm_compute; reflexivity. Qed.

(** Two records of four bytes are appended to the empty array: it holds
    two records, at offsets 0 and 4, with the bytes in the order given. *)
Example scenario_append :
  exists EA m,
    elasticarray_append (EArr 0 0 None)
      [x41; x42; x43; x44; x45; x46; x47; x48] 2 4
      (Mem [Some 4096] [] None) = (Some (0, EA), m) /\
    elasticarray_getsize EA 4 = 2 /\
    elasticarray_get EA 0 4 = 4096 /\
    elasticarray_get EA 1 4 = 4100 /\
    (fun k => block_data (buf EA) !! k) <$> seqZ 0 8 =
      Some <$> [x41; x42; x43; x44; x45; x46; x47; x48].
Proof.
  eexists _, _. split; [vm_compute; reflexivity|].
  split; [vm_compute; reflexivity|].
  split; [vm_compute; reflexivity|].
  split; vm_compute; reflexivity.
Qed.

(** Deleting five records from that array empties it. *)
Example scenario_shrink :
  exists EA m,
    elasticarray_append (EArr 0 0 None)
      [x41; x42; x43; x44; x45; x46; x47; x48] 2 4
      (Mem [Some 4096] [] None) = (Some (0, EA), m) /\
    elasticarray_shrink EA 5 4 m =
      (EArr 0 0 None,
       Mem [] [EvRealloc None 8 (Some 4096); EvFree (Some 4096)] None).
Proof.
  eexists _, _. split; [vm_compute; reflexivity|].
  vm_compute. reflexivity.
Qed.

(** Appending [SIZE_MAX / 2 + 1] records of two bytes fails, and the array
    is the one that was given. *)
Example scenario_overflow :
  elasticarray_append small_array [] (SIZE_MAX / 2 + 1) 2 granting =
    (Some (-1, small_array),
     Mem [Some 8192] [EvMallocEA true] (Some ENOMEM)).
Proof. vm_compute. reflexivity. Qed.

(** With 64-bit sizes too, resizing an array of 2^63 bytes to the size it
    has releases its storage. *)
Example scenario_half_range :
  resize (EArr (2 ^ 63) (2 ^ 63) (Some (Block 4096 ∅))) (2 ^ 63) granting =
    (0, EArr (2 ^ 63) 0 None, logged granting (EvFree (Some 4096))).
Proof. vm_compute. reflexivity. Qed.

End Runs64.
